(** * Stubber: a configurable mock HTTP API server (Go)

    A shallow embedding of the scripting variant of [main.go]: the method
    resolver and response resolver of the request handler, the script
    execution environment built on a pool of goja runtimes, the identifier
    generator exposed to scripts, path-parameter extraction and the OpenAPI
    document generator.

    Conventions.
    - Go strings are byte strings: [string] with 8-bit [ascii] characters.
    - Go [int], [int64] and [byte] are [Z]; a conversion that truncates
      ([byte(x)]) is written out with [mod].  [int] is taken to be 64 bits
      wide, so [int(int64)] is the identity.
    - Go [map[string]T] is [gmap string T]; a nil map and an empty map are
      both [∅] (the program only reads and ranges over maps that may be nil).
    - Go [any] holding decoded JSON or an exported script value is [value].
    - What the program calls in other packages (goja, net/http, strings,
      encoding/json) is not part of the repository; it enters through the
      [Platform] class or is modelled by a small definition whose comment
      says which library behaviour it records. *)

From Stdlib Require Import ZArith String Ascii SpecFloat Lia.
From stdpp Require Import gmap strings list fin_maps.

#[local] Set Warnings "-register-all".
#[local] Open Scope Z_scope.
#[local] Open Scope string_scope.

(** ** Go values *)

(** IEEE-754 binary64 numbers, as the Standard Library specifies them. *)
Definition float64 : Type := spec_float.

(** A Go [any] as this program meets it: decoded JSON ([nil], [bool],
    [float64], [string], [[]any], [map[string]any]), the [int64] that goja
    exports for integral numbers, and [VOpaque] for every other dynamic type
    (a Go function, a struct, a wrapped script object), of which the program
    only ever asks whether it has one of the types above. *)
Inductive value : Type :=
| VNil
| VBool (b : bool)
| VInt (n : Z)
| VFloat (f : float64)
| VString (s : string)
| VSlice (l : list value)
| VMap (m : gmap string value)
| VOpaque (tag : string).

(** ** The identifier generator: [generateUUID], [sprintf], [hexChar] *)

(** [byte(x)]: conversion of an integer to [uint8] keeps the low 8 bits. *)
Definition byte (x : Z) : Z := x mod 256.

(** [hexChar]: [string(hex[b&0x0f])] with [hex = "0123456789abcdef"].  The
    index is always below 16, so the out-of-range branch (a Go panic) is never
    taken; it is written as the empty string. *)
Definition hex : string := "0123456789abcdef".

Definition hexChar (b : Z) : string :=
  match String.get (Z.to_nat (Z.land b 0x0f)) hex with
  | Some c => String c ""
  | None => ""
  end.

(** The variadic [a ...any] of [sprintf]: only [[]byte] arguments are
    formatted, any other dynamic type fails the type assertion. *)
Inductive fmt_arg : Type :=
| ArgBytes (b : list Z)
| ArgOther.

(** The inner loop [for _, v := range b { result += hexChar(v>>4) + hexChar(v&0x0f) }]. *)
Fixpoint hexBytes (b : list Z) : string :=
  match b with
  | [] => ""
  | v :: b' => hexChar (Z.shiftr v 4) ++ hexChar (Z.land v 0x0f) ++ hexBytes b'
  end.

(** [sprintf]: the scan over [format].  The Go loop keeps an index [i] into
    [format] and an index [argIdx] into [a]; here the unread suffix of each is
    passed along.  A ["%x"] consumes one argument if one is left and is
    skipped (both bytes) whether or not an argument was there. *)
Fixpoint sprintf (format : string) (a : list fmt_arg) : string :=
  match format with
  | EmptyString => ""
  | String c rest =>
      match rest with
      | String c' rest' =>
          if Ascii.eqb c "%" && Ascii.eqb c' "x" then
            match a with
            | arg :: a' =>
                match arg with
                | ArgBytes b => hexBytes b
                | ArgOther => ""
                end ++ sprintf rest' a'
            | [] => sprintf rest' []
            end
          else String c (sprintf rest a)
      | EmptyString => String c (sprintf rest a)
      end
  end.

(** The slice expression [b[lo:hi]]. *)
Definition slice {A} (lo hi : nat) (b : list A) : list A :=
  take (hi - lo) (drop lo b).

(** [generateUUID].  Every iteration of the filling loop reads the clock
    anew; [clock i] is the value of [time.Now().UnixNano()] at iteration [i].
    [>>] on a signed integer is an arithmetic shift for every shift count,
    which is [Z.shiftr]. *)
Definition uuidBytes (clock : nat → Z) : list Z :=
  let b := (λ i : nat, byte (Z.shiftr (clock i) (Z.of_nat i * 8))) <$> seq 0 16 in
  let b := <[6%nat := Z.lor (Z.land (b !!! 6%nat) 0x0f) 0x40]> b in
  let b := <[8%nat := Z.lor (Z.land (b !!! 8%nat) 0x3f) 0x80]> b in
  b.

Definition generateUUID (clock : nat → Z) : string :=
  let b := uuidBytes clock in
  sprintf "%x-%x-%x-%x-%x"
    [ArgBytes (slice 0 4 b); ArgBytes (slice 4 6 b); ArgBytes (slice 6 8 b);
     ArgBytes (slice 8 10 b); ArgBytes (slice 10 16 b)].

(** The digit [hexChar] produces, as a character. *)
Definition hexDigit (b : Z) : ascii :=
  default "0"%char (String.get (Z.to_nat (Z.land b 0x0f)) hex).

(** Shape predicates used to state what a canonical UUID string is. *)
Definition is_lower_hex (c : ascii) : bool :=
  let n := nat_of_ascii c in
  ((48 <=? n)%nat && (n <=? 57)%nat) || ((97 <=? n)%nat && (n <=? 102)%nat).

Definition is_variant_digit (c : ascii) : bool :=
  Ascii.eqb c "8" || Ascii.eqb c "9" || Ascii.eqb c "a" || Ascii.eqb c "b".

Definition is_hyphen_position (i : nat) : bool :=
  (i =? 8)%nat || (i =? 13)%nat || (i =? 18)%nat || (i =? 23)%nat.

(** ** The OpenAPI response key: [statusCodeToString] *)

Definition statusCodeToString (code : Z) : string :=
  if (code =? 200)%Z then "200"
  else if (code =? 201)%Z then "201"
  else if (code =? 204)%Z then "204"
  else if (code =? 400)%Z then "400"
  else if (code =? 401)%Z then "401"
  else if (code =? 403)%Z then "403"
  else if (code =? 404)%Z then "404"
  else if (code =? 500)%Z then "500"
  else "200".

(** ** Path parameters: [extractPathValues] *)

(** [strings.Split(s, "/")]: the pieces between the slashes; a string without
    a slash (the empty string too) gives one piece. *)
Fixpoint splitSlash (s : string) : list string :=
  match s with
  | EmptyString => [""]
  | String c s' =>
      if Ascii.eqb c "/" then "" :: splitSlash s'
      else match splitSlash s' with
           | piece :: pieces => String c piece :: pieces
           | [] => [String c ""]
           end
  end.

(** [strings.HasPrefix(part, "{")] and [strings.HasSuffix(part, "}")]. *)
Definition hasPrefixBrace (part : string) : bool :=
  match part with
  | String c _ => Ascii.eqb c "{"
  | EmptyString => false
  end.

Fixpoint hasSuffixBrace (part : string) : bool :=
  match part with
  | EmptyString => false
  | String c EmptyString => Ascii.eqb c "}"
  | String _ rest => hasSuffixBrace rest
  end.

(** [part[1 : len(part)-1]]. *)
Definition paramName (part : string) : string :=
  String.substring 1 (String.length part - 2) part.

(** The body of the loop [for i, part := range patternParts]: one template
    segment paired with the concrete segment at the same index. *)
Definition bindSegment (result : gmap string string) (seg : string * string)
  : gmap string string :=
  let '(part, pathPart) := seg in
  if hasPrefixBrace part && hasSuffixBrace part
  then <[paramName part := pathPart]> result
  else result.

Definition extractPathValues (pattern path : string) : gmap string string :=
  let patternParts := splitSlash pattern in
  let pathParts := splitSlash path in
  if negb (length patternParts =? length pathParts)%nat then ∅
  else foldl bindSegment ∅ (zip patternParts pathParts).




(** ** Data model *)

(** The structs of [main.go].  Each lives in a module of its name so that the
    Go field names can be kept ([Endpoint.Path], [RequestData.Path], ...). *)
Module Endpoint.
Record t : Type := mk {
  Path : string;
  Method : string;
  StatusCode : Z;
  Response : value;
  Headers : gmap string string;
  Summary : string;
  Description : string;
  Tags : list string;
  Script : string;
  Context : gmap string value
}.
End Endpoint.

Module OpenAPIInfo.
Record t : Type := mk {
  Title : string;
  Description : string;
  Version : string
}.
End OpenAPIInfo.

Module Config.
Record t : Type := mk {
  Endpoints : list Endpoint.t;
  Info : option OpenAPIInfo.t
}.
End Config.

Module RequestData.
Record t : Type := mk {
  Method : string;
  Path : string;
  Query : gmap string string;
  Headers : gmap string string;
  Body : value;
  Params : gmap string string
}.
End RequestData.

Module ScriptResult.
Record t : Type := mk {
  Body : value;
  StatusCode : Z;
  Headers : gmap string string
}.
End ScriptResult.

(** ** The libraries the program calls *)

(** What [vm.Set] is given: a plain Go value (the [console] map, the three
    utility functions and every context entry) or the [RequestData] struct. *)
Inductive HostValue : Type :=
| HostAny (v : value)
| HostRequest (r : RequestData.t).

(** A [goja.Value] as [Execute] inspects it: undefined, null, or whatever
    [Export()] returns. *)
Inductive GojaValue : Type :=
| GojaUndefined
| GojaNull
| GojaExports (exported : value).

(** The pair [(val, err)] returned by [vm.RunString]: an error with its
    message, or a value, which may be the nil interface. *)
Inductive RunResult : Type :=
| RunError (err : string)
| RunValue (val : option GojaValue).

(** The library functions that are not part of the repository.  [Runtime] is
    the state of one [*goja.Runtime]; running a script returns its outcome
    and the state the runtime is left in. *)
Class Platform : Type := {
  Runtime : Type;
  goja_New : Runtime;
  goja_Set : string → HostValue → Runtime → Runtime;
  goja_ClearInterrupt : Runtime → Runtime;
  goja_RunString : string → Runtime → RunResult * Runtime;
  (** [json.Unmarshal] into an [any]; [None] is a decoding error. *)
  json_Unmarshal : string → option value;
  (** [textproto.CanonicalMIMEHeaderKey], applied by [Header.Set] and [Header.Get]. *)
  CanonicalMIMEHeaderKey : string → string;
  (** [strings.ToLower]. *)
  strings_ToLower : string → string;
  (** [int(f)] for a float64 that is NaN, infinite or outside the range of
      [int]: the language leaves the result to the implementation. *)
  float64_int_overflow : float64 → Z
}.

(** [int(f)] for a float64: the fraction is discarded (truncation towards
    zero). *)
Definition int_of_float64 `{Platform} (f : float64) : Z :=
  match f with
  | S754_zero _ => 0
  | S754_finite s m e =>
      let magnitude := Z.shiftl (Z.pos m) e in
      let n := if s then - magnitude else magnitude in
      if (- 2 ^ 63 <=? n)%Z && (n <? 2 ^ 63)%Z then n else float64_int_overflow f
  | S754_infinity _ | S754_nan => float64_int_overflow f
  end.

(** ** The script execution environment: [JSRuntime.Execute] *)

(** [sync.Pool] in a sequential run: [Get] hands out a pooled runtime when
    there is one and calls [New] otherwise, [Put] makes the runtime
    available again.  (The real pool may also drop idle items.) *)
Definition Pool `{Platform} : Type := list Runtime.

Definition pool_Get `{Platform} (pool : Pool) : Runtime * Pool :=
  match pool with
  | vm :: rest => (vm, rest)
  | [] => (goja_New, [])
  end.

Definition pool_Put `{Platform} (vm : Runtime) (pool : Pool) : Pool := vm :: pool.

(** The Go functions bound in every runtime; the runtime only holds them. *)
Definition consoleObject : value := VMap {[ "log" := VOpaque "func console.log" ]}.
Definition uuidFunc : value := VOpaque "func uuid".
Definition nowFunc : value := VOpaque "func now".
Definition timestampFunc : value := VOpaque "func timestamp".

(** Lines 81-106 of [Execute]: the bindings made before the script runs.
    The context loop ranges over a map; its keys are distinct. *)
Definition bindGlobals `{Platform} (req : RequestData.t) (context : gmap string value)
    (vm : Runtime) : Runtime :=
  let vm := goja_Set "console" (HostAny consoleObject) vm in
  let vm := goja_Set "uuid" (HostAny uuidFunc) vm in
  let vm := goja_Set "now" (HostAny nowFunc) vm in
  let vm := goja_Set "timestamp" (HostAny timestampFunc) vm in
  let vm := goja_Set "req" (HostRequest req) vm in
  let vm := goja_Set "request" (HostRequest req) vm in
  foldl (λ vm kv, goja_Set kv.1 (HostAny kv.2) vm) vm (map_to_list context).

(** The inner loop over the [headers] object of a script result: string
    values are copied, everything else is skipped. *)
Definition stringHeader (v : value) : option string :=
  match v with
  | VString s => Some s
  | _ => None
  end.

(** Lines 114-151 of [Execute]: the script's final value read as a
    [ScriptResult]. *)
Definition interpretResult `{Platform} (val : option GojaValue) : ScriptResult.t :=
  let default_result (body : value) := ScriptResult.mk body 200 ∅ in
  match val with
  | None | Some GojaUndefined | Some GojaNull => default_result VNil
  | Some (GojaExports exported) =>
      match exported with
      | VMap m =>
          match m !! "body" with
          | Some body =>
              let statusCode :=
                match m !! "statusCode" with
                | Some (VInt code) => code
                | Some (VFloat code) => int_of_float64 code
                | _ => 200
                end in
              let headers :=
                match m !! "headers" with
                | Some (VMap h) => omap stringHeader h
                | _ => ∅
                end in
              ScriptResult.mk body statusCode headers
          | None => default_result exported
          end
      | _ => default_result exported
      end
  end.

(** [Execute]: take a runtime from the pool, bind, run, and in the deferred
    function clear the interrupt flag and put the runtime back. *)
Definition Execute `{Platform} (script : string) (req : RequestData.t)
    (context : gmap string value) (pool : Pool)
  : (string + ScriptResult.t) * Pool :=
  let '(vm, pool) := pool_Get pool in
  let vm := bindGlobals req context vm in
  let '(outcome, vm) := goja_RunString script vm in
  let pool := pool_Put (goja_ClearInterrupt vm) pool in
  match outcome with
  | RunError err => (inl err, pool)
  | RunValue val => (inr (interpretResult val), pool)
  end.

(** ** The request handler *)

(** The [*http.Request] as the handler reads it.  [Body] is what
    [io.ReadAll(r.Body)] returns: [None] for a read error. *)
Module Request.
Record t : Type := mk {
  Method : string;
  URLPath : string;
  URLQuery : gmap string (list string);
  Header : gmap string (list string);
  Body : option string
}.
End Request.

(** What has been written to the [http.ResponseWriter] when the handler
    returns: the status line, the header map and the body, which is either
    raw text or the JSON encoding of a value ([json.NewEncoder(w).Encode(v)]). *)
Inductive BodyData : Type :=
| BodyText (s : string)
| BodyJSON (v : value).

Module Response.
Record t : Type := mk {
  Status : Z;
  Header : gmap string string;
  Body : BodyData
}.
End Response.

(** [w.Header().Set(k, v)] and [w.Header().Get(k)]. *)
Definition header_Set `{Platform} (k v : string) (h : gmap string string)
  : gmap string string :=
  <[CanonicalMIMEHeaderKey k := v]> h.

Definition header_Get `{Platform} (k : string) (h : gmap string string) : string :=
  default "" (h !! CanonicalMIMEHeaderKey k).

(** [for k, v := range headers { w.Header().Set(k, v) }].  Go ranges over a
    map in no fixed order, which shows only when two keys have the same
    canonical form: the one written last stays, here the last in the order
    of [map_to_list]. *)
Definition setHeaders `{Platform} (headers h : gmap string string) : gmap string string :=
  foldl (λ h kv, header_Set kv.1 kv.2 h) h (map_to_list headers).

(** [http.Error(w, msg, code)]: a plain-text reply, the message followed by
    a newline. *)
Definition http_Error `{Platform} (h : gmap string string) (msg : string) (code : Z)
  : Response.t :=
  let h := header_Set "Content-Type" "text/plain; charset=utf-8" h in
  let h := header_Set "X-Content-Type-Options" "nosniff" h in
  Response.mk code h (BodyText (msg ++ String "010" "")).

(** The method resolver, lines 368-375: the first entry, in list order, whose
    method is empty or is the request's. *)
Fixpoint findEndpoint (eps : list Endpoint.t) (method : string) : option Endpoint.t :=
  match eps with
  | [] => None
  | ep :: eps' =>
      if String.eqb (Endpoint.Method ep) "" || String.eqb (Endpoint.Method ep) method
      then Some ep
      else findEndpoint eps' method
  end.

(** An entry that the resolver takes for [method]. *)
Definition accepts (method : string) (ep : Endpoint.t) : Prop :=
  Endpoint.Method ep = "" ∨ Endpoint.Method ep = method.

(** Lines 392-426: the request data handed to the script. *)
Definition parseBody `{Platform} (body : option string) : value :=
  match body with
  | Some bodyBytes =>
      if (0 <? String.length bodyBytes)%nat then
        match json_Unmarshal bodyBytes with
        | Some bodyData => bodyData
        | None => VString bodyBytes
        end
      else VNil
  | None => VNil
  end.

Definition buildRequestData `{Platform} (pathPattern : string) (r : Request.t)
  : RequestData.t :=
  RequestData.mk (Request.Method r) (Request.URLPath r)
    (omap head (Request.URLQuery r))
    (omap head (Request.Header r))
    (parseBody (Request.Body r))
    (extractPathValues pathPattern (Request.URLPath r)).

(** Lines 445-452: the status of a scripted response. *)
Definition scriptedStatus (result : ScriptResult.t) (endpoint : Endpoint.t) : Z :=
  let statusCode := ScriptResult.StatusCode result in
  let statusCode := if (statusCode =? 0)%Z then Endpoint.StatusCode endpoint else statusCode in
  if (statusCode =? 0)%Z then 200 else statusCode.

(** Lines 459-463: the status of a static response. *)
Definition staticStatus (endpoint : Endpoint.t) : Z :=
  let statusCode := Endpoint.StatusCode endpoint in
  if (statusCode =? 0)%Z then 200 else statusCode.

(** The body of the error reply, lines 433-436. *)
Definition scriptErrorBody (err : string) : value :=
  VMap {[ "error" := VString "Script execution failed"; "details" := VString err ]}.

(** The closure registered for one path: [eps] and [pathPattern] are its
    captured variables, the pool is the state of the shared [jsRuntime]. *)
Definition handler `{Platform} (eps : list Endpoint.t) (pathPattern : string)
    (r : Request.t) (pool : Pool) : Response.t * Pool :=
  match findEndpoint eps (Request.Method r) with
  | None => (http_Error ∅ "Method not allowed" 405, pool)
  | Some endpoint =>
      let h := setHeaders (Endpoint.Headers endpoint) ∅ in
      let h := if String.eqb (header_Get "Content-Type" h) ""
               then header_Set "Content-Type" "application/json" h else h in
      if negb (String.eqb (Endpoint.Script endpoint) "") then
        let reqData := buildRequestData pathPattern r in
        let '(outcome, pool) :=
          Execute (Endpoint.Script endpoint) reqData (Endpoint.Context endpoint) pool in
        match outcome with
        | inl err => (Response.mk 500 h (BodyJSON (scriptErrorBody err)), pool)
        | inr result =>
            let h := setHeaders (ScriptResult.Headers result) h in
            (Response.mk (scriptedStatus result endpoint) h
               (BodyJSON (ScriptResult.Body result)), pool)
        end
      else
        (Response.mk (staticStatus endpoint) h (BodyJSON (Endpoint.Response endpoint)), pool)
  end.

(** The [/health] closure: [w.Write([]byte("ok"))], which sends status 200
    when no status was written before. *)
Definition healthHandler `{Platform} (r : Request.t) (pool : Pool) : Response.t * Pool :=
  (Response.mk 200 ∅ (BodyText "ok"), pool).

(** ** The OpenAPI document: [extractPathParams], [generateOpenAPISpec] *)

(** [regexp.MustCompile(`\{([^}]+)\}`).FindAllStringSubmatch(path, -1)], the
    first submatch of every match, left to right.  A match opens at a ['{'],
    takes every byte up to the next ['}'] and needs at least one; [cur] is
    the submatch read so far while a match is open.  An opening brace that
    is closed at once (["{}"]) or never closed yields nothing. *)
Fixpoint scanParams (s : string) (cur : option string) : list string :=
  match s with
  | EmptyString => []
  | String c rest =>
      match cur with
      | None =>
          if Ascii.eqb c "{" then scanParams rest (Some "") else scanParams rest None
      | Some name =>
          if Ascii.eqb c "}" then
            if String.eqb name "" then scanParams rest None
            else name :: scanParams rest None
          else scanParams rest (Some (name ++ String c ""))
      end
  end.

Definition extractPathParams (path : string) : list string := scanParams path None.

(** The [info] object, lines 206-220. *)
Definition openAPIInfoObject (info : option OpenAPIInfo.t) : gmap string value :=
  let m : gmap string value :=
    {[ "title" := VString "Stubber API"; "version" := VString "1.0.0" ]} in
  match info with
  | None => m
  | Some i =>
      let m := if negb (String.eqb (OpenAPIInfo.Title i) "")
               then <["title" := VString (OpenAPIInfo.Title i)]> m else m in
      let m := if negb (String.eqb (OpenAPIInfo.Description i) "")
               then <["description" := VString (OpenAPIInfo.Description i)]> m else m in
      if negb (String.eqb (OpenAPIInfo.Version i) "")
      then <["version" := VString (OpenAPIInfo.Version i)]> m else m
  end.

(** Lines 225-228: the key of the operation inside its path item. *)
Definition methodKey `{Platform} (ep : Endpoint.t) : string :=
  let method := strings_ToLower (Endpoint.Method ep) in
  if String.eqb method "" then "get" else method.

(** The value stored under the response key, lines 237-244. *)
Definition responseObject (ep : Endpoint.t) : value :=
  VMap {[ "description" := VString "Successful response";
          "content" := VMap {[ "application/json" :=
                                 VMap {[ "example" := Endpoint.Response ep ]} ]} ]}.

Definition parameterObject (paramName : string) : value :=
  VMap {[ "name" := VString paramName; "in" := VString "path";
          "required" := VBool true;
          "schema" := VMap {[ "type" := VString "string" ]} ]}.

(** Lines 230-273: the [operation] map of one endpoint. *)
Definition operationOf (ep : Endpoint.t) : gmap string value :=
  let statusCode := Endpoint.StatusCode ep in
  let statusCode := if (statusCode =? 0)%Z then 200 else statusCode in
  let operation : gmap string value :=
    {[ "responses" := VMap {[ statusCodeToString statusCode := responseObject ep ]} ]} in
  let pathParams := extractPathParams (Endpoint.Path ep) in
  let operation :=
    if (0 <? length pathParams)%nat
    then <["parameters" := VSlice (parameterObject <$> pathParams)]> operation
    else operation in
  let operation :=
    if negb (String.eqb (Endpoint.Summary ep) "")
    then <["summary" := VString (Endpoint.Summary ep)]> operation else operation in
  let operation :=
    if negb (String.eqb (Endpoint.Description ep) "")
    then <["description" := VString (Endpoint.Description ep)]> operation else operation in
  if (0 <? length (Endpoint.Tags ep))%nat
  then <["tags" := VSlice (VString <$> Endpoint.Tags ep)]> operation else operation.

(** Lines 275-278: the operation is stored in the path item of its path,
    which is created on first use.  [pathItem] is [paths[path].(map[string]any)];
    every entry of [paths] is a map, so the type assertion of line 278 does
    not fail, and a path without an entry counts as an empty item. *)
Definition pathItem (paths : gmap string value) (path : string) : gmap string value :=
  match paths !! path with
  | Some (VMap item) => item
  | _ => ∅
  end.

Definition addOperation `{Platform} (paths : gmap string value) (ep : Endpoint.t)
  : gmap string value :=
  <[Endpoint.Path ep :=
      VMap (<[methodKey ep := VMap (operationOf ep)]> (pathItem paths (Endpoint.Path ep)))]>
    paths.

Definition healthPathItem : value :=
  VMap {[ "get" := VMap {[
    "summary" := VString "Health check endpoint";
    "tags" := VSlice [VString "System"];
    "responses" := VMap {[ "200" := VMap {[
      "description" := VString "Service is healthy";
      "content" := VMap {[ "text/plain" := VMap {[ "example" := VString "ok" ]} ]} ]} ]} ]} ]}.

Definition openAPIPaths `{Platform} (config : Config.t) : gmap string value :=
  <["/health" := healthPathItem]> (foldl addOperation ∅ (Config.Endpoints config)).

Definition generateOpenAPISpec `{Platform} (config : Config.t) : value :=
  VMap {[ "openapi" := VString "3.0.3";
          "info" := VMap (openAPIInfoObject (Config.Info config));
          "paths" := VMap (openAPIPaths config) ]}.

(** ** Route registration in [main] *)

(** Lines 358-362: the endpoints grouped by path, each group in
    configuration order. *)
Definition groupByPath (endpoints : list Endpoint.t) : gmap string (list Endpoint.t) :=
  foldl (λ (pathEndpoints : gmap string (list Endpoint.t)) ep,
           <[Endpoint.Path ep :=
               (default [] (pathEndpoints !! Endpoint.Path ep) ++ [ep])%list]>
             pathEndpoints)
        ∅ endpoints.

Definition Handler `{Platform} : Type := Request.t → Pool → Response.t * Pool.

(** The default [http.ServeMux] as a table from pattern to handler.
    [http.HandleFunc] panics ([None]) on an empty pattern and on a pattern
    that is registered already.  (Routers that understand wildcards also
    refuse certain overlapping patterns; that is not modelled, so [Some]
    here does not promise that the real registration succeeds.) *)
Definition HandleFunc `{Platform} (pattern : string) (h : Handler)
    (mux : gmap string Handler) : option (gmap string Handler) :=
  if String.eqb pattern "" then None
  else match mux !! pattern with
       | Some _ => None
       | None => Some (<[pattern := h]> mux)
       end.

(** Lines 352-355: the closure serving the document generated at startup. *)
Definition openapiHandler `{Platform} (openAPISpec : value) : Handler :=
  λ r pool,
    (Response.mk 200 (header_Set "Content-Type" "application/json" ∅)
       (BodyJSON openAPISpec), pool).

(** One round of the loop of lines 364-475: the closure over one path and
    its endpoints is registered, unless an earlier registration panicked. *)
Definition registerPath `{Platform} (mux : option (gmap string Handler))
    (kv : string * list Endpoint.t) : option (gmap string Handler) :=
  mux ≫= HandleFunc kv.1 (handler kv.2 kv.1).

(** The registrations of [main], in order: [/openapi.json], one handler per
    configured path, [/health].  [None] is a panic before
    [http.ListenAndServe] is reached: the process serves nothing. *)
Definition registerRoutes `{Platform} (config : Config.t) : option (gmap string Handler) :=
  mux ← HandleFunc "/openapi.json" (openapiHandler (generateOpenAPISpec config)) ∅;
  mux ← foldl registerPath (Some mux) (map_to_list (groupByPath (Config.Endpoints config)));
  HandleFunc "/health" healthHandler mux.

(** ** A concrete platform

    An instance of [Platform] on which the definitions above can be run.  Its
    script engine covers a fragment of what goja executes in its default
    (non-strict) mode: a program is a sequence of statements separated by
    [;], each an integer literal, a global identifier, or an assignment
    [name = literal] to a global; its value is the value of its last
    statement.  As in goja, the global object belongs to the runtime and
    lives as long as the runtime does, [Set] defines a global, an assignment
    to an undeclared name creates one, and reading an undefined name throws a
    ReferenceError.  A program outside the fragment is refused before
    anything runs, like a program that does not parse. *)
Module Mini.

Record runtime : Type := mkRuntime {
  globals : gmap string HostValue;
  interrupt : bool
}.

Inductive stmt : Type :=
| SNum (n : Z)
| SIdent (name : string)
| SAssign (name : string) (n : Z).

Fixpoint splitAt (sep : ascii) (s : string) : list string :=
  match s with
  | EmptyString => [""]
  | String c s' =>
      if Ascii.eqb c sep then "" :: splitAt sep s'
      else match splitAt sep s' with
           | piece :: pieces => String c piece :: pieces
           | [] => [String c ""]
           end
  end.

Fixpoint dropSpaces (s : string) : string :=
  match s with
  | String c s' => if Ascii.eqb c " " then dropSpaces s' else s
  | EmptyString => ""
  end.

Fixpoint revString (s acc : string) : string :=
  match s with
  | EmptyString => acc
  | String c s' => revString s' (String c acc)
  end.

Definition trim (s : string) : string :=
  revString (dropSpaces (revString (dropSpaces s) "")) "".

Definition isDigit (c : ascii) : bool :=
  let n := nat_of_ascii c in (48 <=? n)%nat && (n <=? 57)%nat.

Definition isLetter (c : ascii) : bool :=
  let n := nat_of_ascii c in
  ((65 <=? n)%nat && (n <=? 90)%nat) || ((97 <=? n)%nat && (n <=? 122)%nat)
  || (n =? 95)%nat.

Fixpoint allChars (p : ascii → bool) (s : string) : bool :=
  match s with
  | EmptyString => true
  | String c s' => p c && allChars p s'
  end.

Fixpoint digitsValue (s : string) (acc : Z) : Z :=
  match s with
  | EmptyString => acc
  | String c s' => digitsValue s' (10 * acc + (Z.of_nat (nat_of_ascii c) - 48))
  end.

Definition parseNumber (s : string) : option Z :=
  match s with
  | EmptyString => None
  | _ => if allChars isDigit s then Some (digitsValue s 0) else None
  end.

Definition reserved : list string :=
  ["var"; "let"; "const"; "function"; "return"; "throw"; "new"; "this"; "null";
   "true"; "false"; "typeof"; "delete"; "void"; "if"; "else"; "for"; "while";
   "do"; "in"; "of"; "try"; "catch"; "finally"; "class"; "switch"; "case";
   "break"; "continue"; "default"; "with"; "yield"; "await"; "undefined"].

Definition parseIdent (s : string) : option string :=
  match s with
  | EmptyString => None
  | String c _ =>
      if isLetter c && allChars (λ c, isLetter c || isDigit c) s
         && negb (bool_decide (s ∈ reserved))
      then Some s else None
  end.

Definition parseStmt (s : string) : option stmt :=
  match splitAt "=" s with
  | [e] =>
      match parseNumber (trim e) with
      | Some n => Some (SNum n)
      | None => SIdent <$> parseIdent (trim e)
      end
  | [lhs; rhs] =>
      name ← parseIdent (trim lhs); n ← parseNumber (trim rhs); Some (SAssign name n)
  | _ => None
  end.

Definition parseProgram (script : string) : option (list stmt) :=
  mapM parseStmt (filter (λ s, trim s ≠ "") (splitAt ";" script)).

(** The value a global holds, as the script sees it and as [Export] gives it
    back. *)
Definition readGlobal (h : HostValue) : GojaValue :=
  match h with
  | HostAny VNil => GojaNull
  | HostAny v => GojaExports v
  | HostRequest _ => GojaExports (VOpaque "RequestData")
  end.

Fixpoint run (prog : list stmt) (g : gmap string HostValue) (last : GojaValue)
  : RunResult * gmap string HostValue :=
  match prog with
  | [] => (RunValue (Some last), g)
  | SNum n :: prog' => run prog' g (GojaExports (VInt n))
  | SIdent name :: prog' =>
      match g !! name with
      | Some h => run prog' g (readGlobal h)
      | None => (RunError ("ReferenceError: " ++ name ++ " is not defined"), g)
      end
  | SAssign name n :: prog' =>
      run prog' (<[name := HostAny (VInt n)]> g) (GojaExports (VInt n))
  end.

Definition RunString (script : string) (vm : runtime) : RunResult * runtime :=
  match parseProgram script with
  | None => (RunError "SyntaxError", vm)
  | Some prog =>
      let '(outcome, g) := run prog (globals vm) GojaUndefined in
      (outcome, mkRuntime g (interrupt vm))
  end.

Definition lowerChar (c : ascii) : ascii :=
  let n := nat_of_ascii c in
  if (65 <=? n)%nat && (n <=? 90)%nat then ascii_of_nat (n + 32) else c.

Definition upperChar (c : ascii) : ascii :=
  let n := nat_of_ascii c in
  if (97 <=? n)%nat && (n <=? 122)%nat then ascii_of_nat (n - 32) else c.

Fixpoint toLower (s : string) : string :=
  match s with
  | EmptyString => ""
  | String c s' => String (lowerChar c) (toLower s')
  end.

(** Header keys made of letters, digits and hyphens: the first letter and
    every letter after a hyphen in upper case, the others in lower case. *)
Fixpoint canonical (upper : bool) (s : string) : string :=
  match s with
  | EmptyString => ""
  | String c s' =>
      String (if upper then upperChar c else lowerChar c) (canonical (Ascii.eqb c "-") s')
  end.

(** The JSON texts [null], [true] and [false]; every other body is kept as
    text. *)
Definition unmarshal (s : string) : option value :=
  if String.eqb s "null" then Some VNil
  else if String.eqb s "true" then Some (VBool true)
  else if String.eqb s "false" then Some (VBool false)
  else None.

Definition platform : Platform := {|
  Runtime := runtime;
  goja_New := mkRuntime ∅ false;
  goja_Set := λ name v vm, mkRuntime (<[name := v]> (globals vm)) (interrupt vm);
  goja_ClearInterrupt := λ vm, mkRuntime (globals vm) false;
  goja_RunString := RunString;
  json_Unmarshal := unmarshal;
  CanonicalMIMEHeaderKey := canonical true;
  strings_ToLower := toLower;
  float64_int_overflow := λ _, - 2 ^ 63
|}.

End Mini.

(** ** Sample configurations and requests *)

(** A request without query, headers or body. *)
Definition plainRequest (method path : string) : Request.t :=
  Request.mk method path ∅ ∅ (Some "").

(** [{"path": path, "method": method, "statusCode": code, "response": response}]. *)
Definition staticEndpoint (path method : string) (code : Z) (response : value) : Endpoint.t :=
  Endpoint.mk path method code response ∅ "" "" [] "" ∅.

(** [{"path": path, "method": method, "statusCode": code, "script": script}]. *)
Definition scriptedEndpoint (path method : string) (code : Z) (script : string) : Endpoint.t :=
  Endpoint.mk path method code VNil ∅ "" "" [] script ∅.

(** A scripted endpoint configured with status 418 whose script returns a
    number and names no status. *)
Definition teapot : Endpoint.t := scriptedEndpoint "/teapot" "GET" 418 "42".


(** A script that creates a global, one that creates a global and then
    fails, and one that reads the global. *)
Definition writer : Endpoint.t := scriptedEndpoint "/write" "GET" 0 "leak = 7".
Definition failing : Endpoint.t := scriptedEndpoint "/fail" "GET" 0 "leak = 7; boom".
Definition reader : Endpoint.t := scriptedEndpoint "/read" "GET" 0 "leak".

(** A configuration that defines the path of the built-in health route. *)
Definition ownHealth : Endpoint.t :=
  staticEndpoint "/health" "GET" 503 (VMap {[ "status" := VString "down" ]}).
Definition healthConfig : Config.t := Config.mk [ownHealth] None.
Definition emptyConfig : Config.t := Config.mk [] None.

(** The status codes [statusCodeToString] has a case for. *)
Definition listedStatusCodes : list Z := [200; 201; 204; 400; 401; 403; 404; 500].

(** ** The first version of the server: [src/main.go]

    One handler per endpoint, registered under the endpoint's path as the
    configuration lists them; no grouping by path, no scripts, no OpenAPI
    document.  Its [Endpoint] has five fields. *)
Module Basic.

Module Endpoint.
Record t : Type := mk {
  Path : string;
  Method : string;
  StatusCode : Z;
  Response : value;
  Headers : gmap string string
}.
End Endpoint.

(** The closure of lines 40-60. *)
Definition handler `{Platform} (endpoint : Endpoint.t) (r : Request.t) : Response.t :=
  if negb (String.eqb (Endpoint.Method endpoint) "")
     && negb (String.eqb (Request.Method r) (Endpoint.Method endpoint))
  then http_Error ∅ "Method not allowed" 405
  else
    let h := setHeaders (Endpoint.Headers endpoint) ∅ in
    let h := if String.eqb (header_Get "Content-Type" h) ""
             then header_Set "Content-Type" "application/json" h else h in
    let statusCode := Endpoint.StatusCode endpoint in
    let statusCode := if (statusCode =? 0)%Z then 200 else statusCode in
    Response.mk statusCode h (BodyJSON (Endpoint.Response endpoint)).

Definition healthHandler (r : Request.t) : Response.t :=
  Response.mk 200 ∅ (BodyText "ok").

(** [http.HandleFunc], as for the later versions: a panic ([None]) on an
    empty pattern and on one that is registered already. *)
Definition HandleFunc (pattern : string) (h : Request.t → Response.t)
    (mux : gmap string (Request.t → Response.t))
  : option (gmap string (Request.t → Response.t)) :=
  if String.eqb pattern "" then None
  else match mux !! pattern with
       | Some _ => None
       | None => Some (<[pattern := h]> mux)
       end.

(** One round of the loop of lines 38-62. *)
Definition registerEndpoint `{Platform}
    (mux : option (gmap string (Request.t → Response.t))) (ep : Endpoint.t)
  : option (gmap string (Request.t → Response.t)) :=
  mux ≫= HandleFunc (Endpoint.Path ep) (handler ep).

(** The registrations of [main]: every endpoint in turn, then [/health]. *)
Definition registerRoutes `{Platform} (endpoints : list Endpoint.t)
  : option (gmap string (Request.t → Response.t)) :=
  mux ← foldl registerEndpoint (Some ∅) endpoints;
  HandleFunc "/health" healthHandler mux.

End Basic.

(** The endpoint that the later versions decode from the JSON object of a
    first-version endpoint: the fields the object does not have are zero. *)
Definition upgradeEndpoint (e : Basic.Endpoint.t) : Endpoint.t :=
  Endpoint.mk (Basic.Endpoint.Path e) (Basic.Endpoint.Method e)
    (Basic.Endpoint.StatusCode e) (Basic.Endpoint.Response e)
    (Basic.Endpoint.Headers e) "" "" [] "" ∅.

(** ** Auxiliary notions for the statements below *)

(** The value of a hexadecimal digit, to read back what [hexChar] wrote. *)
Definition hexValue (c : ascii) : Z :=
  let n := Z.of_nat (nat_of_ascii c) in
  if (n <? 58)%Z then n - 48 else n - 87.

(** Whether the byte [c] occurs in [s]. *)
Fixpoint containsByte (c : ascii) (s : string) : bool :=
  match s with
  | EmptyString => false
  | String c' s' => Ascii.eqb c' c || containsByte c s'
  end.

(** [strings.Join(segs, "/")], to speak of a template by its segments. *)
Fixpoint joinSlash (segs : list string) : string :=
  match segs with
  | [] => ""
  | seg :: rest =>
      match rest with
      | [] => seg
      | _ :: _ => seg ++ String "/" (joinSlash rest)
      end
  end.

(** The name a template segment binds, if it binds one: the test and the
    slice of the loop in [extractPathValues]. *)
Definition segmentParam (part : string) : option string :=
  if hasPrefixBrace part && hasSuffixBrace part then Some (paramName part) else None.

(** A segment without braces, and a segment that is one placeholder
    [{name}] with a non-empty name; a template made of such segments has no
    segment that mixes literal text and placeholders. *)
Definition literalSegment (seg : string) : Prop :=
  containsByte "{" seg = false ∧ containsByte "}" seg = false
  ∧ containsByte "/" seg = false.

Definition placeholderSegment (seg : string) : Prop :=
  ∃ name : string,
    seg = String "{" (name ++ String "}" "") ∧ name ≠ "" ∧
    containsByte "{" name = false ∧ containsByte "}" name = false
    ∧ containsByte "/" name = false.

(** Lines 382-388: the headers every reply of a matched endpoint starts
    from, the endpoint's own and [application/json] when they leave
    [Content-Type] empty. *)
Definition endpointHeaders `{Platform} (endpoint : Endpoint.t) : gmap string string :=
  let h := setHeaders (Endpoint.Headers endpoint) ∅ in
  if String.eqb (header_Get "Content-Type" h) ""
  then header_Set "Content-Type" "application/json" h else h.

(** A value of type [byte]. *)
Definition isByte (v : Z) : Prop := 0 <= v < 256.

(** The loop of [setHeaders] over a list of entries. *)
Definition setHeaderList `{Platform} (l : list (string * string)) (h : gmap string string)
  : gmap string string :=
  foldl (λ h kv, header_Set kv.1 kv.2 h) h l.

(** A platform whose engine answers every script with one given outcome,
    whatever the script text; everything else is as in [Mini].  It serves to
    run the handler on script results that the fragment of [Mini] cannot
    produce, a map with a body, a status and headers for instance. *)
Definition Canned (outcome : RunResult) : Platform := {|
  Runtime := Mini.runtime;
  goja_New := Mini.mkRuntime ∅ false;
  goja_Set := λ name v vm,
                Mini.mkRuntime (<[name := v]> (Mini.globals vm)) (Mini.interrupt vm);
  goja_ClearInterrupt := λ vm, Mini.mkRuntime (Mini.globals vm) false;
  goja_RunString := λ _ vm, (outcome, vm);
  json_Unmarshal := Mini.unmarshal;
  CanonicalMIMEHeaderKey := Mini.canonical true;
  strings_ToLower := Mini.toLower;
  float64_int_overflow := λ _, - 2 ^ 63
|}.

(** * Properties *)

#[local] Open Scope list_scope.

Example Mini_parse : Mini.parseProgram "leak = 7; boom" = Some [Mini.SAssign "leak" 7; Mini.SIdent "boom"].
Proof. vm_compute. reflexivity. Qed.

Example splitSlash_root : splitSlash "/api/users/42" = [""; "api"; "users"; "42"].
Proof. reflexivity. Qed.

Example generateUUID_zero_clock :
  generateUUID (λ _, 0) = "00000000-0000-4000-8000-000000000000".
Proof. vm_compute. reflexivity. Qed.

(** ** The identifier generator *)

Lemma nibble_range (b : Z) : 0 <= Z.land b 0x0f < 16.
Proof.
  change 0x0f with (Z.ones 4). rewrite Z.land_ones by lia.
  apply Z.mod_pos_bound. lia.
Qed.

Lemma nibble_cases (n : Z) (P : Z → Prop) :
  0 <= n < 16 →
  P 0 → P 1 → P 2 → P 3 → P 4 → P 5 → P 6 → P 7 →
  P 8 → P 9 → P 10 → P 11 → P 12 → P 13 → P 14 → P 15 → P n.
Proof.
  intros Hn.
  assert (n = 0 ∨ n = 1 ∨ n = 2 ∨ n = 3 ∨ n = 4 ∨ n = 5 ∨ n = 6 ∨ n = 7 ∨
          n = 8 ∨ n = 9 ∨ n = 10 ∨ n = 11 ∨ n = 12 ∨ n = 13 ∨ n = 14 ∨ n = 15)
    as Hcases by lia.
  intros. repeat (destruct Hcases as [-> | Hcases]; [assumption |]).
  subst n. assumption.
Qed.

Lemma hexChar_digit (b : Z) : hexChar b = String (hexDigit b) "".
Proof.
  unfold hexChar, hexDigit.
  apply (nibble_cases (Z.land b 0x0f)); [apply nibble_range | reflexivity ..].
Qed.

Lemma hexDigit_lower_hex (b : Z) : is_lower_hex (hexDigit b) = true.
Proof.
  unfold hexDigit.
  apply (nibble_cases (Z.land b 0x0f)); [apply nibble_range | reflexivity ..].
Qed.

(** The version nibble: the high half of [(b & 0x0f) | 0x40] is 4. *)
Lemma version_nibble (b : Z) :
  hexDigit (Z.shiftr (Z.lor (Z.land b 0x0f) 0x40) 4) = "4"%char.
Proof.
  apply (nibble_cases (Z.land b 0x0f)); [apply nibble_range | reflexivity ..].
Qed.

Lemma range_check (P : Z → bool) (k : nat) :
  forallb P (Z.of_nat <$> seq 0 k) = true → ∀ n, 0 <= n < Z.of_nat k → P n = true.
Proof.
  intros Hall n Hn. rewrite forallb_forall in Hall. apply Hall.
  apply in_map_iff. exists (Z.to_nat n). split; [lia |].
  apply in_seq. lia.
Qed.

(** The variant nibble: the high half of [(b & 0x3f) | 0x80] is 8, 9, 10 or 11. *)
Lemma variant_nibble (b : Z) :
  is_variant_digit (hexDigit (Z.shiftr (Z.lor (Z.land b 0x3f) 0x80) 4)) = true.
Proof.
  assert (0 <= Z.land b 0x3f < Z.of_nat 64) as Hrange.
  { change 0x3f with (Z.ones 6). rewrite Z.land_ones by lia.
    apply Z.mod_pos_bound. lia. }
  apply (range_check (λ n, is_variant_digit (hexDigit (Z.shiftr (Z.lor n 0x80) 4))) 64);
    [vm_compute; reflexivity | exact Hrange].
Qed.

Lemma uuidBytes_shape (clock : nat → Z) :
  ∃ b0 b1 b2 b3 b4 b5 b6 b7 b8 b9 b10 b11 b12 b13 b14 b15 : Z,
    uuidBytes clock =
      [b0; b1; b2; b3; b4; b5; Z.lor (Z.land b6 0x0f) 0x40; b7;
       Z.lor (Z.land b8 0x3f) 0x80; b9; b10; b11; b12; b13; b14; b15].
Proof. unfold uuidBytes. do 16 eexists. reflexivity. Qed.

(** C9. Whatever the clock reads at each of the sixteen iterations,
    [generateUUID] returns 36 characters: hyphens at positions 8, 13, 18 and
    23 (counted from 0), lower-case hexadecimal digits everywhere else, that
    is five groups of 8, 4, 4, 4 and 12 digits for 16 bytes; the first digit
    of the third group (the version nibble) is 4 and the first digit of the
    fourth group (the variant nibble) is 8, 9, a or b. *)
Theorem generateUUID_canonical_v4 (clock : nat → Z) :
  String.length (generateUUID clock) = 36%nat ∧
  (∀ (i : nat) (c : ascii),
      String.get i (generateUUID clock) = Some c →
      if is_hyphen_position i then c = "-"%char else is_lower_hex c = true) ∧
  String.get 14 (generateUUID clock) = Some "4"%char ∧
  (∃ c : ascii,
      String.get 19 (generateUUID clock) = Some c ∧
      (c = "8" ∨ c = "9" ∨ c = "a" ∨ c = "b")%char).
Proof.
  destruct (uuidBytes_shape clock) as
    (b0 & b1 & b2 & b3 & b4 & b5 & b6 & b7 & b8 & b9 & b10 & b11 & b12 & b13 & b14 & b15 & Hb).
  unfold generateUUID. rewrite Hb.
  cbn -[Z.shiftr Z.land Z.lor hexChar].
  rewrite !hexChar_digit.
  cbv [String.append].
  rewrite version_nibble.
  pose proof (variant_nibble b8) as Hvariant.
  set (v := hexDigit (Z.shiftr (Z.lor (Z.land b8 0x3f) 0x80) 4)) in *.
  split; [reflexivity |]. split; [| split].
  - intros i c.
    do 36 (destruct i as [| i];
           [cbn -[hexDigit]; intros [= <-];
            first [reflexivity | apply hexDigit_lower_hex
                  | (unfold is_variant_digit in Hvariant;
                     repeat (apply orb_true_iff in Hvariant as [Hvariant | Hvariant]);
                     apply Ascii.eqb_eq in Hvariant; rewrite Hvariant; reflexivity)] |]).
    cbn. discriminate.
  - reflexivity.
  - exists v. split; [reflexivity |].
    unfold is_variant_digit in Hvariant.
    repeat (apply orb_true_iff in Hvariant as [Hvariant | Hvariant]);
      apply Ascii.eqb_eq in Hvariant; tauto.
Qed.

(** ** Path parameters *)






(** ** The method resolver *)

Section MethodResolver.
Context `{Platform}.

Lemma findEndpoint_cons (ep : Endpoint.t) (eps : list Endpoint.t) (method : string) :
  findEndpoint (ep :: eps) method =
    if String.eqb (Endpoint.Method ep) "" || String.eqb (Endpoint.Method ep) method
    then Some ep else findEndpoint eps method.
Proof. reflexivity. Qed.

Lemma accepts_test (method : string) (ep : Endpoint.t) :
  String.eqb (Endpoint.Method ep) "" || String.eqb (Endpoint.Method ep) method = true
  ↔ accepts method ep.
Proof. unfold accepts. rewrite orb_true_iff, !String.eqb_eq. done. Qed.

Lemma findEndpoint_skip (pre eps : list Endpoint.t) (method : string) :
  Forall (λ e, ¬ accepts method e) pre →
  findEndpoint (pre ++ eps) method = findEndpoint eps method.
Proof.
  induction 1 as [| e pre Hno _ IH]; [done |].
  simpl. destruct (_ || _) eqn:Htest; [| exact IH].
  apply accepts_test in Htest. done.
Qed.

Lemma findEndpoint_Some (eps : list Endpoint.t) (method : string) (ep : Endpoint.t) :
  findEndpoint eps method = Some ep ↔
  ∃ pre post, eps = pre ++ ep :: post ∧ Forall (λ e, ¬ accepts method e) pre
              ∧ accepts method ep.
Proof.
  split.
  - induction eps as [| e eps IH]; [done |].
    rewrite findEndpoint_cons. destruct (_ || _) eqn:Htest.
    + intros [= ->]. exists [], eps. apply accepts_test in Htest. done.
    + intros (pre & post & -> & Hpre & Hep)%IH.
      exists (e :: pre), post. split_and!; [done | | done].
      constructor; [| done]. rewrite <- accepts_test, Htest. done.
  - intros (pre & post & -> & Hpre & Hep).
    rewrite findEndpoint_skip, findEndpoint_cons by done.
    apply accepts_test in Hep. by rewrite Hep.
Qed.

Lemma findEndpoint_None (eps : list Endpoint.t) (method : string) :
  findEndpoint eps method = None ↔ Forall (λ e, ¬ accepts method e) eps.
Proof.
  induction eps as [| e eps IH]; [done |].
  rewrite findEndpoint_cons, Forall_cons, <- IH, <- accepts_test.
  destruct (_ || _); intuition congruence.
Qed.

(** C1. The resolver returns [ep] exactly when [ep] is the first entry, in
    list order, whose method is empty or is the inbound method (compared
    byte for byte); an entry with an empty method that precedes every
    matching entry is therefore returned whatever follows it, an entry with
    exactly the inbound method included; and when no entry matches, the
    handler replies with [http.Error(w, "Method not allowed", 405)] and
    returns without touching the script runtimes. *)
Theorem method_resolver_first_match
    (eps : list Endpoint.t) (pathPattern : string) (r : Request.t) (pool : Pool) :
  (∀ ep : Endpoint.t,
     findEndpoint eps (Request.Method r) = Some ep ↔
     ∃ pre post, eps = pre ++ ep :: post
                 ∧ Forall (λ e, Endpoint.Method e ≠ ""
                                ∧ Endpoint.Method e ≠ Request.Method r) pre
                 ∧ (Endpoint.Method ep = "" ∨ Endpoint.Method ep = Request.Method r)) ∧
  (∀ (pre post : list Endpoint.t) (wildcard exact : Endpoint.t),
     eps = pre ++ wildcard :: post →
     Forall (λ e, Endpoint.Method e ≠ "" ∧ Endpoint.Method e ≠ Request.Method r) pre →
     Endpoint.Method wildcard = "" →
     exact ∈ post → Endpoint.Method exact = Request.Method r →
     findEndpoint eps (Request.Method r) = Some wildcard) ∧
  (Forall (λ e, Endpoint.Method e ≠ "" ∧ Endpoint.Method e ≠ Request.Method r) eps →
   handler eps pathPattern r pool = (http_Error ∅ "Method not allowed" 405, pool)
   ∧ Response.Status (handler eps pathPattern r pool).1 = 405
   ∧ Response.Body (handler eps pathPattern r pool).1
       = BodyText ("Method not allowed" ++ String "010" "")%string).
Proof.
  assert (∀ l : list Endpoint.t,
            Forall (λ e, Endpoint.Method e ≠ "" ∧ Endpoint.Method e ≠ Request.Method r) l
            ↔ Forall (λ e, ¬ accepts (Request.Method r) e) l) as Hno.
  { intros l. apply Forall_proper; [| done]. intros e. unfold accepts. tauto. }
  split_and!.
  - intros ep. rewrite findEndpoint_Some. by setoid_rewrite Hno.
  - intros pre post wildcard exact -> Hpre Hwild _ _.
    apply findEndpoint_Some. exists pre, post. rewrite <- Hno. unfold accepts. auto.
  - intros Hnone. apply Hno, findEndpoint_None in Hnone.
    unfold handler. rewrite Hnone. done.
Qed.

End MethodResolver.

(** ** Reading the script's value *)

Section ScriptResults.
Context `{Platform}.

Lemma interpretResult_body (m : gmap string value) (body : value) :
  m !! "body" = Some body →
  interpretResult (Some (GojaExports (VMap m))) =
    ScriptResult.mk body
      match m !! "statusCode" with
      | Some (VInt code) => code
      | Some (VFloat code) => int_of_float64 code
      | _ => 200
      end
      match m !! "headers" with
      | Some (VMap h) => omap stringHeader h
      | _ => ∅
      end.
Proof. intros Hbody. unfold interpretResult. by rewrite Hbody. Qed.

(** [int(f)] discards the fraction of a float64 that fits an [int]. *)
Lemma int_of_float64_truncates (s : bool) (m : positive) (e : Z) :
  let magnitude := Z.shiftl (Z.pos m) e in
  magnitude < 2 ^ 63 →
  int_of_float64 (S754_finite s m e) = if s then - magnitude else magnitude.
Proof.
  intros magnitude Hlt. unfold int_of_float64. fold magnitude.
  assert (0 <= magnitude) by (apply Z.shiftl_nonneg; lia).
  destruct s.
  - destruct (Z.leb_spec (- 2 ^ 63) (- magnitude)), (Z.ltb_spec (- magnitude) (2 ^ 63));
      simpl; try reflexivity; lia.
  - destruct (Z.leb_spec (- 2 ^ 63) magnitude), (Z.ltb_spec magnitude (2 ^ 63));
      simpl; try reflexivity; lia.
Qed.

(** C5. When the script's final value exports as a map with a [body] key,
    the result's body is the value under that key; a [statusCode] that is
    an integer becomes the status, one that is a float64 becomes the status
    with its fraction discarded, and a [statusCode] of any other type, like
    a missing one, leaves the default 200; a [headers] value that is a map
    yields exactly its entries with string values, unchanged, and none of
    its other entries. *)
Theorem interpretResult_structured (m : gmap string value) (body : value) :
  m !! "body" = Some body →
  let result := interpretResult (Some (GojaExports (VMap m))) in
  ScriptResult.Body result = body ∧
  (∀ code : Z,
     m !! "statusCode" = Some (VInt code) → ScriptResult.StatusCode result = code) ∧
  (∀ code : float64,
     m !! "statusCode" = Some (VFloat code) →
     ScriptResult.StatusCode result = int_of_float64 code) ∧
  (∀ (sign : bool) (mant : positive) (e : Z),
     m !! "statusCode" = Some (VFloat (S754_finite sign mant e)) →
     Z.shiftl (Z.pos mant) e < 2 ^ 63 →
     ScriptResult.StatusCode result =
       if sign then - Z.shiftl (Z.pos mant) e else Z.shiftl (Z.pos mant) e) ∧
  ((∀ code : Z, m !! "statusCode" ≠ Some (VInt code)) →
   (∀ code : float64, m !! "statusCode" ≠ Some (VFloat code)) →
   ScriptResult.StatusCode result = 200) ∧
  (∀ h : gmap string value,
     m !! "headers" = Some (VMap h) →
     ∀ (k s : string),
       ScriptResult.Headers result !! k = Some s ↔ h !! k = Some (VString s)).
Proof.
  intros Hbody result. subst result. rewrite (interpretResult_body _ _ Hbody). simpl.
  split_and!.
  - done.
  - by intros code ->.
  - by intros code ->.
  - intros sign mant e -> Hlt. by apply int_of_float64_truncates.
  - intros Hint Hfloat. destruct (m !! "statusCode") as [[]|]; try done.
    + by destruct (Hint n).
    + by destruct (Hfloat f).
  - intros h -> k s. rewrite lookup_omap.
    destruct (h !! k) as [[]|]; simpl; naive_solver.
Qed.


(** But [Execute] starts every result at 200 ([ScriptResult{StatusCode:
    200}]), so a script that names no status still hands a non-zero code to
    the handler. *)
Lemma interpretResult_status_default (val : option GojaValue) :
  (∀ m code, val = Some (GojaExports (VMap m)) → m !! "statusCode" ≠ Some code) →
  ScriptResult.StatusCode (interpretResult val) = 200.
Proof.
  intros Hno. unfold interpretResult.
  destruct val as [[| | []]|]; try reflexivity.
  destruct (m !! "body"); [| reflexivity]. simpl.
  destruct (m !! "statusCode") as [code|] eqn:Hcode; [| reflexivity].
  by destruct (Hno m code).
Qed.

End ScriptResults.

(** ** The status of a scripted response *)

(** C3 fails on the code.  Under any platform, a script value that names no
    status (a map with only a [body], or a plain number) resolves to 200
    whatever the endpoint's [statusCode]: the fallback of lines 447-449 is
    reached only with a script status of 0, which [Execute] never produces by
    default.  On the concrete platform, [GET /teapot] for an endpoint
    configured with 418 and the script [42] is answered with 200. *)
Theorem scripted_status_ignores_configured_code :
  (∀ (P : Platform) (ep : Endpoint.t) (body : value),
     scriptedStatus (interpretResult (Some (GojaExports (VMap {[ "body" := body ]})))) ep
       = 200) ∧
  (∀ (P : Platform) (ep : Endpoint.t) (n : Z),
     scriptedStatus (interpretResult (Some (GojaExports (VInt n)))) ep = 200) ∧
  Endpoint.StatusCode teapot = 418 ∧
  (@handler Mini.platform [teapot] "/teapot" (plainRequest "GET" "/teapot") []).1
    = Response.mk 200 {[ "Content-Type" := "application/json" ]} (BodyJSON (VInt 42)).
Proof.
  split_and!.
  - intros P ep body. unfold interpretResult.
    rewrite lookup_singleton_eq, !lookup_singleton_ne by done. reflexivity.
  - reflexivity.
  - reflexivity.
  - vm_compute. reflexivity.
Qed.

(** ** Route registration *)

Section Registration.
Context `{Platform}.

Lemma HandleFunc_Some (pattern : string) (h : Handler) (mux mux' : gmap string Handler) :
  HandleFunc pattern h mux = Some mux' →
  pattern ≠ "" ∧ mux !! pattern = None ∧ mux' = <[pattern := h]> mux.
Proof.
  unfold HandleFunc. destruct (String.eqb_spec pattern ""); [done |].
  destruct (mux !! pattern); [done |]. by intros [= <-].
Qed.

Lemma HandleFunc_fresh (pattern : string) (h : Handler) (mux : gmap string Handler) :
  pattern ≠ "" → mux !! pattern = None → HandleFunc pattern h mux = Some (<[pattern := h]> mux).
Proof.
  intros Hne Hfresh. unfold HandleFunc.
  apply String.eqb_neq in Hne. by rewrite Hne, Hfresh.
Qed.

Lemma registerPath_panic (routes : list (string * list Endpoint.t)) :
  foldl registerPath None routes = None.
Proof. by induction routes. Qed.

(** When the loop completes, every pattern it went through was fresh and
    not empty, and is registered afterwards along with those registered
    before. *)
Lemma registerPath_all (routes : list (string * list Endpoint.t))
    (mux mux' : gmap string Handler) :
  foldl registerPath (Some mux) routes = Some mux' →
  (∀ kv, kv ∈ routes → kv.1 ≠ "" ∧ mux !! kv.1 = None) ∧
  (∀ pattern, is_Some (mux !! pattern) ∨ pattern ∈ routes.*1 → is_Some (mux' !! pattern)).
Proof.
  revert mux. induction routes as [| [path eps] routes IH]; intros mux Hfold.
  - injection Hfold as <-. split; [by intros kv ?%elem_of_nil |].
    intros pattern [Hreg | Hin%elem_of_nil]; done.
  - simpl in Hfold.
    destruct (HandleFunc path (handler eps path) mux) as [mux1|] eqn:Hreg.
    2: { by rewrite registerPath_panic in Hfold. }
    apply HandleFunc_Some in Hreg as (Hne & Hfresh & ->).
    apply IH in Hfold as [Hfreshes Hkept]. split.
    + intros kv [-> | Hin]%elem_of_cons; [done |].
      destruct (Hfreshes kv Hin) as [Hne' Hnone]. split; [done |].
      destruct (decide (path = kv.1)) as [-> | Hdiff].
      * by rewrite lookup_insert_eq in Hnone.
      * by rewrite lookup_insert_ne in Hnone.
    + intros pattern Hpattern. apply Hkept.
      destruct (decide (path = pattern)) as [-> | Hdiff].
      * left. by rewrite lookup_insert_eq.
      * rewrite lookup_insert_ne by done.
        destruct Hpattern as [Hreg | Hin]; [by left |].
        rewrite fmap_cons, elem_of_cons in Hin. simpl in Hin.
        destruct Hin as [-> | Hin]; [done | by right].
Qed.

(** The route table holds, for every path, the endpoints of that path in
    configuration order. *)
Lemma groupByPath_lookup (endpoints : list Endpoint.t) (path : string) :
  default [] (groupByPath endpoints !! path)
    = filter (λ ep, Endpoint.Path ep = path) endpoints.
Proof.
  unfold groupByPath.
  induction endpoints as [| ep endpoints IH] using rev_ind; [done |].
  rewrite foldl_app, filter_app. simpl.
  destruct (decide (Endpoint.Path ep = path)) as [<- | Hne].
  - rewrite lookup_insert_eq. simpl. rewrite IH.
    rewrite filter_cons_True by done. done.
  - rewrite lookup_insert_ne by done. rewrite IH.
    rewrite filter_cons_False by done. by rewrite app_nil_r.
Qed.

Lemma groupByPath_is_Some (endpoints : list Endpoint.t) (ep : Endpoint.t) :
  ep ∈ endpoints → is_Some (groupByPath endpoints !! Endpoint.Path ep).
Proof.
  intros Hin.
  destruct (groupByPath endpoints !! Endpoint.Path ep) as [eps|] eqn:Hlook; [done |].
  pose proof (groupByPath_lookup endpoints (Endpoint.Path ep)) as Hfilter.
  rewrite Hlook in Hfilter. simpl in Hfilter.
  assert (ep ∈ filter (λ e, Endpoint.Path e = Endpoint.Path ep) endpoints) as Hep
    by (by apply list_elem_of_filter).
  rewrite <- Hfilter in Hep. by apply elem_of_nil in Hep.
Qed.

(** When the loop completes, every path it went through is registered with
    the closure over that path and its endpoints, and earlier registrations
    are still in place. *)
Lemma registerPath_lookup (routes : list (string * list Endpoint.t))
    (mux mux' : gmap string Handler) :
  foldl registerPath (Some mux) routes = Some mux' →
  (∀ pattern h, mux !! pattern = Some h → mux' !! pattern = Some h) ∧
  (∀ kv, kv ∈ routes → mux' !! kv.1 = Some (handler kv.2 kv.1)).
Proof.
  revert mux. induction routes as [| [path eps] routes IH]; intros mux Hfold.
  - injection Hfold as <-. split; [done | by intros kv ?%elem_of_nil].
  - simpl in Hfold.
    destruct (HandleFunc path (handler eps path) mux) as [mux1|] eqn:Hreg.
    2: { by rewrite registerPath_panic in Hfold. }
    apply HandleFunc_Some in Hreg as (Hne & Hfresh & ->).
    apply IH in Hfold as [Hkept Hnew]. split.
    + intros pattern h Hreg. apply Hkept. rewrite lookup_insert_ne; [done |].
      intros ->. by rewrite Hfresh in Hreg.
    + intros kv [-> | Hin]%elem_of_cons; [| by apply Hnew].
      apply Hkept. by rewrite lookup_insert_eq.
Qed.

(** A configuration with an endpoint whose path is [/health], is
    [/openapi.json] or is empty stops [main] with a panic. *)
Lemma registerRoutes_conflict (config : Config.t) (ep : Endpoint.t) :
  ep ∈ Config.Endpoints config →
  Endpoint.Path ep ∈ ["/health"; "/openapi.json"; ""]%string →
  registerRoutes config = None.
Proof.
  intros Hep Hpath. unfold registerRoutes.
  rewrite (HandleFunc_fresh "/openapi.json") by done. simpl.
  destruct (foldl registerPath _ _) as [mux|] eqn:Hfold; [| done]. simpl.
  apply registerPath_all in Hfold as [Hfresh Hkept].
  destruct (groupByPath_is_Some _ _ Hep) as [eps Hgroup].
  apply elem_of_map_to_list in Hgroup.
  rewrite !elem_of_cons, elem_of_nil in Hpath.
  destruct Hpath as [Hpath | [Hpath | [Hpath | []]]]; rewrite Hpath in Hgroup.
  - unfold HandleFunc. simpl.
    destruct (Hkept "/health"%string) as [h ->]; [| done].
    right. apply list_elem_of_fmap. by exists ("/health"%string, eps).
  - destruct (Hfresh _ Hgroup) as [_ Hnone]. simpl in Hnone.
    by rewrite lookup_insert_eq in Hnone.
  - by destruct (Hfresh _ Hgroup) as [Hne _].
Qed.

(** When [main] gets as far as serving, [/health] is registered with the
    built-in closure, which replies 200 and [ok] to every request. *)
Lemma registerRoutes_health (config : Config.t) (mux : gmap string Handler) :
  registerRoutes config = Some mux →
  mux !! "/health"%string = Some healthHandler ∧
  ∀ r pool, healthHandler r pool = (Response.mk 200 ∅ (BodyText "ok"), pool).
Proof.
  unfold registerRoutes.
  rewrite (HandleFunc_fresh "/openapi.json") by done. simpl.
  destruct (foldl registerPath _ _) as [mux1|]; [| done]. simpl.
  intros (_ & _ & ->)%HandleFunc_Some. by rewrite lookup_insert_eq.
Qed.


End Registration.

(** C8 holds for the configurations [main] can start with and fails for one
    that defines [/health] itself.  With no endpoints, [/health] is
    registered with the built-in closure, which replies 200 and [ok].  With
    an endpoint whose path is [/health], the path is registered once from the
    configuration and once more as the built-in route; the second
    registration panics, so the process stops before it serves anything. *)
Theorem health_path_in_configuration_stops_startup :
  @registerRoutes Mini.platform healthConfig = None ∧
  (∃ mux, @registerRoutes Mini.platform emptyConfig = Some mux ∧
          mux !! "/health"%string = Some (@healthHandler Mini.platform) ∧
          ∀ r pool, @healthHandler Mini.platform r pool
                    = (Response.mk 200 ∅ (BodyText "ok"), pool)).
Proof.
  assert (∀ (P : Platform) (config : Config.t) (ep : Endpoint.t),
            ep ∈ Config.Endpoints config → Endpoint.Path ep = "/health"%string →
            registerRoutes config = None) as Hgeneral.
  { intros P config ep Hep Hpath. apply (registerRoutes_conflict config ep Hep).
    rewrite Hpath. apply list_elem_of_here. }
  split.
  - apply (Hgeneral Mini.platform healthConfig ownHealth); [| reflexivity].
    apply list_elem_of_here.
  - assert (is_Some (@registerRoutes Mini.platform emptyConfig)) as [mux Hroutes].
    { unfold registerRoutes, emptyConfig, groupByPath. simpl.
      rewrite (HandleFunc_fresh "/openapi.json") by done. simpl.
      rewrite map_to_list_empty. simpl.
      rewrite (HandleFunc_fresh "/health"); [done | done |].
      by rewrite lookup_insert_ne. }
    exists mux. split; [exact Hroutes |].
    by apply (@registerRoutes_health Mini.platform emptyConfig).
Qed.

(** ** Static endpoints *)

Section StaticEndpoints.
Context `{Platform}.



End StaticEndpoints.



(** ** The runtime pool *)

Section RuntimePool.
Context `{Platform}.

(** What [Execute] leaves in the pool: the runtime it took, in the state
    the script left it in, with only the interrupt flag cleared. *)
Lemma Execute_pool (script : string) (req : RequestData.t) (context : gmap string value)
    (pool : Pool) :
  (Execute script req context pool).2 =
    goja_ClearInterrupt (goja_RunString script (bindGlobals req context (pool_Get pool).1)).2
      :: (pool_Get pool).2.
Proof.
  unfold Execute. destruct (pool_Get pool) as [vm rest]. simpl.
  destruct (goja_RunString script (bindGlobals req context vm)) as [[err | val] vm'];
    reflexivity.
Qed.

(** The next evaluation starts from that very runtime. *)
Lemma Execute_reuses_runtime (script : string) (req : RequestData.t)
    (context : gmap string value) (pool : Pool) :
  (pool_Get (Execute script req context pool).2).1 =
    goja_ClearInterrupt (goja_RunString script (bindGlobals req context (pool_Get pool).1)).2.
Proof. by rewrite Execute_pool. Qed.

(** A script error becomes a 500 reply with the error body of lines 433-436. *)
Lemma handler_script_error (eps : list Endpoint.t) (pathPattern : string) (r : Request.t)
    (pool pool' : Pool) (ep : Endpoint.t) (err : string) :
  findEndpoint eps (Request.Method r) = Some ep →
  Endpoint.Script ep ≠ "" →
  Execute (Endpoint.Script ep) (buildRequestData pathPattern r) (Endpoint.Context ep) pool
    = (inl err, pool') →
  ∃ h, handler eps pathPattern r pool
       = (Response.mk 500 h (BodyJSON (scriptErrorBody err)), pool').
Proof.
  intros Hfind Hscript Hexec. unfold handler. rewrite Hfind.
  apply String.eqb_neq in Hscript. rewrite Hscript. simpl. rewrite Hexec. eauto.
Qed.

End RuntimePool.

(** C2 fails on the code.  Under any platform, the runtime that [Execute]
    puts back is the one the script ran in, as the script left it: the
    deferred function clears the interrupt flag and nothing else.  On the
    concrete platform, after an evaluation of [leak = 7] the next evaluation
    on the same pool, of the script [leak], returns 7; on a fresh pool, and
    after an evaluation that did not assign [leak], the same script fails
    with a ReferenceError.  The bindings [Execute] makes itself stay as
    well: a context entry [token] of one evaluation is read by the script of
    the next, whose own context is empty. *)
Theorem pooled_runtime_leaks_globals :
  let req := buildRequestData (H := Mini.platform) "/read" (plainRequest "GET" "/read") in
  (∀ (P : Platform) (script : string) (rd : RequestData.t) (context : gmap string value)
     (pool : Pool),
     (Execute script rd context pool).2 =
       goja_ClearInterrupt
         (goja_RunString script (bindGlobals rd context (pool_Get pool).1)).2
         :: (pool_Get pool).2) ∧
  (@Execute Mini.platform "leak" req ∅ (@Execute Mini.platform "leak = 7" req ∅ []).2).1
    = inr (ScriptResult.mk (VInt 7) 200 ∅) ∧
  (@Execute Mini.platform "leak" req ∅ (@Execute Mini.platform "1" req ∅ []).2).1
    = inl "ReferenceError: leak is not defined" ∧
  (@Execute Mini.platform "leak" req ∅ []).1 = inl "ReferenceError: leak is not defined" ∧
  (@Execute Mini.platform "token" req ∅
     (@Execute Mini.platform "1" req {[ "token" := VString "secret" ]} []).2).1
    = inr (ScriptResult.mk (VString "secret") 200 ∅).
Proof.
  split_and!.
  - intros P script rd context pool. apply Execute_pool.
  - vm_compute. reflexivity.
  - vm_compute. reflexivity.
  - vm_compute. reflexivity.
  - vm_compute. reflexivity.
Qed.

(** C6 holds for the reply and fails for the isolation.  On the concrete
    platform the script [leak = 7; boom] is answered with 500 and the error
    body; the runtime goes back to the pool with the global it created, and
    the next request, to another scripted endpoint whose script is [leak], is
    answered with 200 and 7, where it is answered with 500 when the failed
    request did not come first. *)
Theorem script_failure_reaches_next_request :
  let failed := @handler Mini.platform [failing] "/fail" (plainRequest "GET" "/fail") [] in
  failed.1 =
    Response.mk 500 {[ "Content-Type" := "application/json" ]}
      (BodyJSON (VMap {[ "error" := VString "Script execution failed";
                         "details" := VString "ReferenceError: boom is not defined" ]})) ∧
  (@handler Mini.platform [reader] "/read" (plainRequest "GET" "/read") failed.2).1 =
    Response.mk 200 {[ "Content-Type" := "application/json" ]} (BodyJSON (VInt 7)) ∧
  (@handler Mini.platform [reader] "/read" (plainRequest "GET" "/read") []).1 =
    Response.mk 500 {[ "Content-Type" := "application/json" ]}
      (BodyJSON (VMap {[ "error" := VString "Script execution failed";
                         "details" := VString "ReferenceError: leak is not defined" ]})).
Proof.
  split_and!; vm_compute; reflexivity.
Qed.

(** ** The OpenAPI document *)

Section OpenAPI.
Context `{Platform}.

Lemma statusCodeToString_unlisted (code : Z) :
  code ∉ listedStatusCodes → statusCodeToString code = "200"%string.
Proof.
  unfold listedStatusCodes. rewrite !not_elem_of_cons.
  intros (? & ? & ? & ? & ? & ? & ? & ? & _). unfold statusCodeToString.
  repeat match goal with
         | Hne : code ≠ _ |- _ => apply Z.eqb_neq in Hne; rewrite Hne; clear Hne
         end.
  reflexivity.
Qed.

Lemma operationOf_responses (ep : Endpoint.t) :
  operationOf ep !! "responses"%string
    = Some (VMap {[ statusCodeToString (staticStatus ep) := responseObject ep ]}).
Proof.
  unfold operationOf, staticStatus.
  repeat (match goal with
          | |- context [if ?b then _ else _] => destruct b
          end;
          rewrite ?lookup_insert_ne by done);
    apply lookup_singleton_eq.
Qed.

Lemma pathItem_addOperation (paths : gmap string value) (ep : Endpoint.t)
    (path key : string) :
  pathItem (addOperation paths ep) path !! key =
    if decide (Endpoint.Path ep = path ∧ methodKey ep = key)
    then Some (VMap (operationOf ep))
    else pathItem paths path !! key.
Proof.
  unfold addOperation. unfold pathItem at 1.
  destruct (decide (Endpoint.Path ep = path)) as [<- | Hpath].
  - rewrite lookup_insert_eq.
    destruct (decide (methodKey ep = key)) as [<- | Hkey].
    + rewrite lookup_insert_eq. by rewrite decide_True.
    + rewrite lookup_insert_ne by done. rewrite decide_False by tauto. done.
  - rewrite lookup_insert_ne by done. rewrite decide_False by tauto. done.
Qed.

(** Every operation in the document was made from an endpoint with that
    path and method key. *)
Lemma pathItem_foldl_origin (endpoints : list Endpoint.t) (path key : string) (op : value) :
  pathItem (foldl addOperation ∅ endpoints) path !! key = Some op →
  ∃ ep, ep ∈ endpoints ∧ Endpoint.Path ep = path ∧ methodKey ep = key
        ∧ op = VMap (operationOf ep).
Proof.
  induction endpoints as [| ep endpoints IH] using rev_ind.
  - unfold pathItem. simpl. rewrite lookup_empty. by rewrite lookup_empty.
  - rewrite foldl_app. simpl. rewrite pathItem_addOperation.
    destruct (decide _) as [[Hpath Hkey] | _].
    + intros [= <-]. exists ep. rewrite elem_of_app, list_elem_of_singleton. auto.
    + intros (ep' & Hin & Hrest)%IH. exists ep'. rewrite elem_of_app. auto.
Qed.

(** The operation of an endpoint stays in the document unless a later
    endpoint has the same path and method key. *)
Lemma pathItem_foldl_last (pre post : list Endpoint.t) (ep : Endpoint.t) :
  Forall (λ e, ¬ (Endpoint.Path e = Endpoint.Path ep ∧ methodKey e = methodKey ep)) post →
  pathItem (foldl addOperation ∅ (pre ++ ep :: post)) (Endpoint.Path ep) !! methodKey ep
    = Some (VMap (operationOf ep)).
Proof.
  induction post as [| e post IH] using rev_ind; intros Hpost.
  - rewrite foldl_app. simpl.
    rewrite pathItem_addOperation. by rewrite decide_True.
  - apply Forall_app in Hpost as [Hpost He]. apply Forall_inv in He.
    rewrite app_comm_cons, app_assoc, foldl_app. simpl.
    rewrite pathItem_addOperation. rewrite decide_False by exact He. by apply IH.
Qed.

Lemma pathItem_openAPIPaths (config : Config.t) (path : string) :
  path ≠ "/health"%string →
  pathItem (openAPIPaths config) path
    = pathItem (foldl addOperation ∅ (Config.Endpoints config)) path.
Proof.
  intros Hne. unfold openAPIPaths, pathItem. by rewrite lookup_insert_ne.
Qed.

(** C10.  [statusCodeToString] returns "200" for every code outside 200,
    201, 204, 400, 401, 403, 404 and 500 (301 and 418 for instance), so the
    [responses] object of an endpoint whose resolved status is such a code
    has the single key "200"; that operation is what the document holds
    for the endpoint's path and method key unless a later endpoint replaces
    it, and every operation the document holds outside [/health] is the
    operation of some configured endpoint. *)
Theorem openapi_unlisted_status_under_200 :
  (∀ code : Z, code ∉ listedStatusCodes → statusCodeToString code = "200"%string) ∧
  statusCodeToString 301 = "200"%string ∧ statusCodeToString 418 = "200"%string ∧
  (∀ ep : Endpoint.t,
     staticStatus ep ∉ listedStatusCodes →
     operationOf ep !! "responses"%string
       = Some (VMap {[ "200"%string := responseObject ep ]})) ∧
  (∀ (config : Config.t) (pre post : list Endpoint.t) (ep : Endpoint.t),
     Config.Endpoints config = pre ++ ep :: post →
     Endpoint.Path ep ≠ "/health"%string →
     Forall (λ e, ¬ (Endpoint.Path e = Endpoint.Path ep ∧ methodKey e = methodKey ep))
            post →
     pathItem (openAPIPaths config) (Endpoint.Path ep) !! methodKey ep
       = Some (VMap (operationOf ep))) ∧
  (∀ (config : Config.t) (path key : string) (op : value),
     path ≠ "/health"%string →
     pathItem (openAPIPaths config) path !! key = Some op →
     ∃ ep, ep ∈ Config.Endpoints config ∧ Endpoint.Path ep = path ∧ methodKey ep = key
           ∧ op = VMap (operationOf ep)).
Proof.
  split_and!.
  - apply statusCodeToString_unlisted.
  - reflexivity.
  - reflexivity.
  - intros ep Hcode. rewrite operationOf_responses.
    by rewrite statusCodeToString_unlisted.
  - intros config pre post ep Hcfg Hpath Hpost.
    rewrite pathItem_openAPIPaths, Hcfg by done. by apply pathItem_foldl_last.
  - intros config path key op Hpath. rewrite pathItem_openAPIPaths by done.
    apply pathItem_foldl_origin.
Qed.

End OpenAPI.

(** C10 at an endpoint configured with 418. *)
Lemma openapi_unlisted_status_under_200_witness :
  let ep := staticEndpoint "/brew" "POST" 418 (VString "short and stout") in
  staticStatus ep = 418 ∧
  pathItem (@openAPIPaths Mini.platform (Config.mk [ep] None)) "/brew" !! "post"%string
    = Some (VMap (operationOf ep)) ∧
  operationOf ep !! "responses"%string = Some (VMap {[ "200"%string := responseObject ep ]}).
Proof.
  intros ep.
  pose proof (@openapi_unlisted_status_under_200 Mini.platform)
    as (_ & _ & _ & Hresponses & Hlast & _).
  split; [reflexivity |]. split.
  - apply (Hlast (Config.mk [ep] None) [] [] ep); [reflexivity | discriminate | constructor].
  - apply Hresponses. vm_compute.
    intros Hin. repeat (apply elem_of_cons in Hin as [Hin | Hin]; [discriminate |]).
    by apply elem_of_nil in Hin.
Defined.

(** ** The statements above at concrete inputs *)

(** C1 on a path with a wildcard entry registered before a [GET] entry, and
    on a path that only knows [POST]. *)
Lemma method_resolver_first_match_witness :
  let wildcard := staticEndpoint "/items" "" 200 (VString "any") in
  let exact := staticEndpoint "/items" "GET" 200 (VString "get") in
  let post := staticEndpoint "/orders" "POST" 201 VNil in
  findEndpoint [wildcard; exact] "GET" = Some wildcard ∧
  Response.Status
    (@handler Mini.platform [post] "/orders" (plainRequest "GET" "/orders") []).1 = 405.
Proof.
  intros wildcard exact post. split.
  - apply (proj1 (proj2 (@method_resolver_first_match Mini.platform [wildcard; exact]
                           "/items" (plainRequest "GET" "/items") []))
             [] [exact] wildcard exact); try reflexivity.
    + constructor.
    + apply list_elem_of_here.
  - apply (proj2 (proj2 (@method_resolver_first_match Mini.platform [post]
                           "/orders" (plainRequest "GET" "/orders") []))).
    repeat constructor; discriminate.
Defined.

(** C5 on the value [{body: "hi", statusCode: 201.5, headers: {"X-Test": "v",
    "X-Num": 1}}]. *)
Lemma interpretResult_structured_witness :
  let m : gmap string value :=
    {[ "body" := VString "hi";
       "statusCode" := VFloat (S754_finite false 403 (-1));
       "headers" := VMap {[ "X-Test" := VString "v"; "X-Num" := VInt 1 ]} ]} in
  let result := @interpretResult Mini.platform (Some (GojaExports (VMap m))) in
  ScriptResult.Body result = VString "hi" ∧
  ScriptResult.StatusCode result = 201 ∧
  ScriptResult.Headers result !! "X-Test"%string = Some "v"%string ∧
  ScriptResult.Headers result !! "X-Num"%string = None.
Proof.
  intros m result.
  destruct (@interpretResult_structured Mini.platform m (VString "hi") eq_refl)
    as (Hbody & _ & _ & Hfloat & _ & Hheaders).
  split; [exact Hbody |]. split; [| split].
  - apply (Hfloat false 403%positive (-1)); [reflexivity | reflexivity].
  - apply (Hheaders {[ "X-Test" := VString "v"; "X-Num" := VInt 1 ]} eq_refl). reflexivity.
  - destruct (ScriptResult.Headers result !! "X-Num"%string) as [s|] eqn:Hnum; [| reflexivity].
    apply (Hheaders {[ "X-Test" := VString "v"; "X-Num" := VInt 1 ]} eq_refl) in Hnum.
    discriminate Hnum.
Defined.

(** C9 with a clock that stands still at zero. *)
Lemma generateUUID_canonical_v4_witness :
  String.get 0 (generateUUID (λ _, 0)) = Some "0"%char ∧
  is_lower_hex "0" = true.
Proof.
  split; [reflexivity |].
  exact (proj1 (proj2 (generateUUID_canonical_v4 (λ _, 0))) 0%nat "0"%char eq_refl).
Defined.

(** * Further properties of the code *)

(** ** The hexadecimal formatter *)

Lemma hexValue_hexDigit (n : Z) : hexValue (hexDigit n) = Z.land n 0x0f.
Proof.
  unfold hexDigit.
  apply (nibble_cases (Z.land n 0x0f) (λ k, hexValue (default "0"%char
           (String.get (Z.to_nat k) hex)) = k)); [apply nibble_range | reflexivity ..].
Qed.

Lemma byte_nibbles (v : Z) :
  isByte v → v = 16 * Z.land (Z.shiftr v 4) 0x0f + Z.land (Z.land v 0x0f) 0x0f.
Proof.
  intros Hv. unfold isByte in Hv.
  change 0x0f with (Z.ones 4). rewrite !Z.land_ones by lia.
  rewrite Z.shiftr_div_pow2 by lia. change (2 ^ 4) with 16.
  rewrite Z.mod_mod by lia.
  assert (0 <= v / 16 < 16) by (split; [apply Z.div_pos | apply Z.div_lt_upper_bound]; lia).
  rewrite (Z.mod_small (v / 16)) by lia.
  pose proof (Z.div_mod v 16). lia.
Qed.

Lemma hexBytes_cons (v : Z) (b : list Z) :
  hexBytes (v :: b)
    = String (hexDigit (Z.shiftr v 4)) (String (hexDigit (Z.land v 0x0f)) (hexBytes b)).
Proof. simpl. rewrite !hexChar_digit. reflexivity. Qed.

Lemma hexBytes_injective (b b' : list Z) :
  Forall isByte b → Forall isByte b' → hexBytes b = hexBytes b' → b = b'.
Proof.
  intros Hb. revert b'. induction Hb as [| v b Hv _ IH]; intros b' Hb' Heq.
  - destruct Hb' as [| v' b' _ _]; [done |]. rewrite hexBytes_cons in Heq. discriminate.
  - destruct Hb' as [| v' b' Hv' Hb']; rewrite !hexBytes_cons in Heq; [discriminate |].
    injection Heq as Hhi Hlo Hrest.
    apply (f_equal hexValue) in Hhi, Hlo. rewrite !hexValue_hexDigit in Hhi, Hlo.
    f_equal; [| by apply IH].
    rewrite (byte_nibbles v Hv), (byte_nibbles v' Hv'). by rewrite Hhi, Hlo.
Qed.

Lemma hexBytes_length (b : list Z) : String.length (hexBytes b) = (2 * length b)%nat.
Proof.
  induction b as [| v b IH]; [done |].
  rewrite hexBytes_cons. simpl. rewrite IH. lia.
Qed.

Lemma string_app_empty (s : string) : (s ++ "")%string = s.
Proof.
  induction s as [| c s IH]; [done |].
  change (String c (s ++ "")%string = String c s). by rewrite IH.
Qed.

Lemma sprintf_hex (b : list Z) : sprintf "%x" [ArgBytes b] = hexBytes b.
Proof. simpl. apply string_app_empty. Qed.

(** X1. [hexChar] never indexes outside its sixteen-character table: for
    every integer, a byte or not, it returns one lower-case hexadecimal digit,
    and that digit depends on the low four bits only. *)
Theorem hexChar_low_nibble (b : Z) :
  (∃ c : ascii, hexChar b = String c "" ∧ is_lower_hex c = true
                ∧ hexValue c = b mod 16) ∧
  hexChar b = hexChar (b mod 16).
Proof.
  assert (Z.land b 0x0f = b mod 16) as Hland.
  { change 0x0f with (Z.ones 4). by rewrite Z.land_ones by lia. }
  split.
  - exists (hexDigit b). rewrite hexChar_digit, hexDigit_lower_hex, hexValue_hexDigit.
    by rewrite Hland.
  - unfold hexChar. rewrite Hland.
    change 0x0f with (Z.ones 4). rewrite Z.land_ones by lia.
    change (2 ^ 4) with 16. by rewrite Z.mod_mod by lia.
Qed.

(** X2. A ["%x"] applied to a byte slice writes two characters per byte, and
    byte slices that differ are written differently. *)
Theorem sprintf_hex_two_digits_injective (b b' : list Z) :
  String.length (sprintf "%x" [ArgBytes b]) = (2 * length b)%nat ∧
  (Forall isByte b → Forall isByte b' → b ≠ b' →
   sprintf "%x" [ArgBytes b] ≠ sprintf "%x" [ArgBytes b']).
Proof.
  rewrite !sprintf_hex. split; [apply hexBytes_length |].
  intros Hb Hb' Hne Heq. by apply Hne, hexBytes_injective.
Qed.

Lemma sprintf_hex_two_digits_injective_witness :
  sprintf "%x" [ArgBytes [1]] ≠ sprintf "%x" [ArgBytes [16]].
Proof.
  apply (proj2 (sprintf_hex_two_digits_injective [1] [16]));
    [repeat constructor; unfold isByte; lia .. | discriminate].
Defined.



(** ** The identifier generator, continued *)

Lemma uuidBytes_explicit (clock : nat → Z) :
  uuidBytes clock =
    [byte (Z.shiftr (clock 0%nat) 0); byte (Z.shiftr (clock 1%nat) 8);
     byte (Z.shiftr (clock 2%nat) 16); byte (Z.shiftr (clock 3%nat) 24);
     byte (Z.shiftr (clock 4%nat) 32); byte (Z.shiftr (clock 5%nat) 40);
     Z.lor (Z.land (byte (Z.shiftr (clock 6%nat) 48)) 0x0f) 0x40;
     byte (Z.shiftr (clock 7%nat) 56);
     Z.lor (Z.land (byte (Z.shiftr (clock 8%nat) 64)) 0x3f) 0x80;
     byte (Z.shiftr (clock 9%nat) 72); byte (Z.shiftr (clock 10%nat) 80);
     byte (Z.shiftr (clock 11%nat) 88); byte (Z.shiftr (clock 12%nat) 96);
     byte (Z.shiftr (clock 13%nat) 104); byte (Z.shiftr (clock 14%nat) 112);
     byte (Z.shiftr (clock 15%nat) 120)].
Proof. reflexivity. Qed.

(** Shifting a non-negative [int64] by 64 bits or more leaves nothing. *)
Lemma byte_shift_out (t n : Z) : 0 <= t < 2 ^ 63 → 64 <= n → byte (Z.shiftr t n) = 0.
Proof.
  intros Ht Hn. rewrite Z.shiftr_div_pow2 by lia.
  assert (2 ^ 63 <= 2 ^ n) by (apply Z.pow_le_mono_r; lia).
  rewrite Z.div_small by lia. reflexivity.
Qed.

(** X4. The loop shifts a 64-bit clock reading by up to 120 bits, so bytes 8
    to 15 hold nothing of it: as long as the clock readings are non-negative
    [int64] values, every identifier ends in [8000-000000000000], and only
    the first sixteen digits vary. *)
Theorem generateUUID_constant_tail (clock : nat → Z) :
  (∀ i : nat, (i < 16)%nat → 0 <= clock i < 2 ^ 63) →
  String.substring 19 17 (generateUUID clock) = "8000-000000000000"%string.
Proof.
  intros Hclock. unfold generateUUID. rewrite uuidBytes_explicit.
  rewrite (byte_shift_out (clock 8%nat) 64), (byte_shift_out (clock 9%nat) 72),
    (byte_shift_out (clock 10%nat) 80), (byte_shift_out (clock 11%nat) 88),
    (byte_shift_out (clock 12%nat) 96), (byte_shift_out (clock 13%nat) 104),
    (byte_shift_out (clock 14%nat) 112), (byte_shift_out (clock 15%nat) 120)
    by (first [apply Hclock; lia | lia]).
  cbn -[Z.shiftr Z.land Z.lor hexChar byte].
  rewrite !hexChar_digit. cbv [String.append]. reflexivity.
Qed.

Lemma generateUUID_constant_tail_witness :
  String.substring 19 17 (generateUUID (λ i, 1700000000000000000 + Z.of_nat i))
    = "8000-000000000000"%string.
Proof.
  apply generateUUID_constant_tail. intros i Hi.
  change (2 ^ 63) with 9223372036854775808. lia.
Defined.

(** ** Path parameters, continued *)

Lemma string_app_assoc (s1 s2 s3 : string) :
  ((s1 ++ s2) ++ s3 = s1 ++ (s2 ++ s3))%string.
Proof.
  induction s1 as [| c s1 IH]; [done |].
  change (String c ((s1 ++ s2) ++ s3) = String c (s1 ++ (s2 ++ s3)))%string.
  by rewrite IH.
Qed.

Lemma containsByte_app (c : ascii) (s1 s2 : string) :
  containsByte c (s1 ++ s2)%string = containsByte c s1 || containsByte c s2.
Proof.
  induction s1 as [| c1 s1 IH]; [done |].
  change (containsByte c (String c1 (s1 ++ s2)%string)
          = containsByte c (String c1 s1) || containsByte c s2).
  simpl. rewrite IH. by rewrite orb_assoc.
Qed.

Lemma scanParams_cons (c : ascii) (rest : string) (cur : option string) :
  scanParams (String c rest) cur =
    match cur with
    | None => if Ascii.eqb c "{" then scanParams rest (Some ""%string)
              else scanParams rest None
    | Some name =>
        if Ascii.eqb c "}" then
          if String.eqb name "" then scanParams rest None
          else name :: scanParams rest None
        else scanParams rest (Some (name ++ String c "")%string)
    end.
Proof. reflexivity. Qed.

(** What the scan returns while a match is open ([cur = Some acc]) or not:
    a name either completes the open match or lies between braces further
    on. *)
Lemma scanParams_sound (s : string) (cur : option string) (name : string) :
  name ∈ scanParams s cur →
  match cur with Some acc => containsByte "}" acc = false | None => True end →
  name ≠ ""%string ∧ containsByte "}" name = false ∧
  ((∃ pre post : string, s = (pre ++ String "{" (name ++ String "}" post))%string) ∨
   (∃ acc rest post : string,
      cur = Some acc ∧ name = (acc ++ rest)%string ∧ s = (rest ++ String "}" post)%string)).
Proof.
  revert cur. induction s as [| c s IH]; intros cur Hin Hcur.
  { by apply elem_of_nil in Hin. }
  rewrite scanParams_cons in Hin. destruct cur as [acc |].
  - destruct (Ascii.eqb_spec c "}") as [-> | Hc].
    + destruct (String.eqb_spec acc "") as [Heq | Hacc].
      * subst acc. apply IH in Hin as (Hne & Hclean & [(pre & post & ->) | (? & ? & ? & [=] & _)]);
          [| done]. split_and!; [done | done |].
        left. by exists (String "}" pre), post.
      * apply elem_of_cons in Hin as [-> | Hin].
        -- split_and!; [done | done |]. right. exists acc, ""%string, s.
           by rewrite string_app_empty.
        -- apply IH in Hin as (Hne & Hclean & [(pre & post & ->) | (? & ? & ? & [=] & _)]);
             [| done]. split_and!; [done | done |].
           left. by exists (String "}" pre), post.
    + apply IH in Hin as (Hne & Hclean & Hwhere).
      2: { rewrite containsByte_app, Hcur. simpl.
           apply Ascii.eqb_neq in Hc. by rewrite Hc. }
      split_and!; [done | done |].
      destruct Hwhere as [(pre & post & ->) | (acc' & rest & post & [= <-] & -> & ->)].
      * left. by exists (String c pre), post.
      * right. exists acc, (String c rest), post. split_and!; [done | | done].
        by rewrite string_app_assoc.
  - destruct (Ascii.eqb_spec c "{") as [-> | Hc].
    + apply IH in Hin as (Hne & Hclean & Hwhere); [| done].
      split_and!; [done | done |]. left.
      destruct Hwhere as [(pre & post & ->) | (acc' & rest & post & [= <-] & -> & ->)].
      * by exists (String "{" pre), post.
      * by exists ""%string, post.
    + apply IH in Hin as (Hne & Hclean & [(pre & post & ->) | (? & ? & ? & [=] & _)]);
        [| done]. split_and!; [done | done |].
      left. by exists (String c pre), post.
Qed.

Lemma scanParams_no_brace (s : string) :
  containsByte "{" s = false → scanParams s None = [].
Proof.
  induction s as [| c s IH]; [done |].
  simpl. intros [Hc Hs]%orb_false_iff. rewrite Hc. by apply IH.
Qed.

(** X5. Every parameter name [extractPathParams] reports is non-empty, has no
    closing brace in it, and stands between braces in the path; a path
    without an opening brace has no parameters. *)
Theorem extractPathParams_sound (path : string) :
  (∀ name : string,
     name ∈ extractPathParams path →
     name ≠ ""%string ∧ containsByte "}" name = false ∧
     ∃ pre post : string, path = (pre ++ String "{" (name ++ String "}" post))%string) ∧
  (containsByte "{" path = false → extractPathParams path = []).
Proof.
  split; [| apply scanParams_no_brace].
  intros name Hin. unfold extractPathParams in Hin.
  apply scanParams_sound in Hin as (Hne & Hclean & [Hwhere | (? & ? & ? & [=] & _)]);
    done.
Qed.

Lemma extractPathParams_sound_witness :
  "postId"%string ≠ ""%string ∧
  extractPathParams "/health" = [].
Proof.
  destruct (extractPathParams_sound "/api/users/{id}/posts/{postId}") as [Hnames _].
  destruct (Hnames "postId"%string) as (Hne & _).
  { vm_compute. apply list_elem_of_In. right. left. reflexivity. }
  split; [exact Hne |].
  apply (proj2 (extractPathParams_sound "/health")). reflexivity.
Defined.

(** A template segment that binds a name. *)
Lemma bindSegment_lookup (result : gmap string string) (part seg name : string) :
  bindSegment result (part, seg) !! name =
    if hasPrefixBrace part && hasSuffixBrace part
    then (if decide (paramName part = name) then Some seg else result !! name)
    else result !! name.
Proof.
  unfold bindSegment. destruct (_ && _); [| done].
  by rewrite lookup_insert.
Qed.

Lemma foldl_bindSegment_cons (part seg : string) (tpl conc : list string)
    (acc : gmap string string) :
  foldl bindSegment acc (zip (part :: tpl) (seg :: conc))
    = foldl bindSegment (bindSegment acc (part, seg)) (zip tpl conc).
Proof. reflexivity. Qed.

Lemma foldl_bindSegment_untouched (tpl conc : list string) (acc : gmap string string)
    (name : string) :
  (∀ (j : nat) (part : string),
     tpl !! j = Some part → hasPrefixBrace part && hasSuffixBrace part = true →
     paramName part ≠ name) →
  foldl bindSegment acc (zip tpl conc) !! name = acc !! name.
Proof.
  revert conc acc. induction tpl as [| part tpl IH]; intros [| seg conc] acc Hother;
    try done.
  rewrite foldl_bindSegment_cons.
  rewrite IH by (intros j part' Hj; apply (Hother (S j) part' Hj)).
  rewrite bindSegment_lookup.
  destruct (_ && _) eqn:Hbrace; [| done].
  by rewrite decide_False by (apply (Hother 0%nat part); done).
Qed.

Lemma foldl_bindSegment_last (tpl conc : list string) (acc : gmap string string)
    (i : nat) (part seg : string) :
  tpl !! i = Some part → conc !! i = Some seg →
  hasPrefixBrace part && hasSuffixBrace part = true →
  (∀ (j : nat) (part' : string),
     (i < j)%nat → tpl !! j = Some part' →
     hasPrefixBrace part' && hasSuffixBrace part' = true →
     paramName part' ≠ paramName part) →
  foldl bindSegment acc (zip tpl conc) !! paramName part = Some seg.
Proof.
  revert conc acc i.
  induction tpl as [| part0 tpl IH]; intros [| seg0 conc] acc [| i] Htpl Hconc Hbrace Hlater;
    try done.
  - injection Htpl as ->. injection Hconc as ->. rewrite foldl_bindSegment_cons.
    rewrite foldl_bindSegment_untouched.
    + rewrite bindSegment_lookup, Hbrace. by rewrite decide_True.
    + intros j part' Hj. apply (Hlater (S j) part'); [lia | done].
  - rewrite foldl_bindSegment_cons. apply (IH conc _ i); [done | done | done |].
    intros j part' Hij Hj. apply (Hlater (S j) part'); [lia | done].
Qed.

(** X6. When the segment counts agree, a template segment [{name}] gives
    [name] the concrete segment at its position unless a later template
    segment carries the same name: of two segments with one name the later
    one decides. *)
Theorem extractPathValues_last_binding_wins
    (pattern path : string) (i : nat) (part seg : string) :
  length (splitSlash pattern) = length (splitSlash path) →
  splitSlash pattern !! i = Some part →
  splitSlash path !! i = Some seg →
  hasPrefixBrace part && hasSuffixBrace part = true →
  (∀ (j : nat) (part' : string),
     (i < j)%nat → splitSlash pattern !! j = Some part' →
     hasPrefixBrace part' && hasSuffixBrace part' = true →
     paramName part' ≠ paramName part) →
  extractPathValues pattern path !! paramName part = Some seg.
Proof.
  intros Hlen Hpart Hseg Hbrace Hlater. unfold extractPathValues.
  apply Nat.eqb_eq in Hlen. rewrite Hlen. simpl.
  by apply (foldl_bindSegment_last _ _ _ i part seg).
Qed.

Lemma extractPathValues_last_binding_wins_witness :
  extractPathValues "/copy/{id}/to/{id}" "/copy/1/to/2" !! "id"%string = Some "2"%string.
Proof.
  apply (extractPathValues_last_binding_wins "/copy/{id}/to/{id}" "/copy/1/to/2"
           4 "{id}" "2"); try reflexivity.
  intros [| [| [| [| [| j]]]]] part' Hj; try lia; discriminate.
Defined.

(** ** The route table *)

Lemma groupByPath_nonempty (endpoints : list Endpoint.t) (path : string)
    (eps : list Endpoint.t) :
  groupByPath endpoints !! path = Some eps → eps ≠ [].
Proof.
  unfold groupByPath. revert eps.
  induction endpoints as [| ep endpoints IH] using rev_ind; intros eps.
  - simpl. by rewrite lookup_empty.
  - rewrite foldl_app. simpl.
    destruct (decide (Endpoint.Path ep = path)) as [<- | Hne].
    + rewrite lookup_insert_eq. intros [= <-]. by intros [? ?]%app_eq_nil.
    + rewrite lookup_insert_ne by done. apply IH.
Qed.

(** X7. The table built at startup has a group for a path exactly when some
    endpoint has that path, and the group is the list of all endpoints with
    that path in configuration order: no endpoint is lost, none is filed
    under another path, and no group is empty. *)
Theorem groupByPath_groups (endpoints : list Endpoint.t) (path : string)
    (eps : list Endpoint.t) :
  groupByPath endpoints !! path = Some eps ↔
  eps ≠ [] ∧ eps = filter (λ ep, Endpoint.Path ep = path) endpoints.
Proof.
  split.
  - intros Hgroup. split; [by apply (groupByPath_nonempty endpoints path) |].
    rewrite <- groupByPath_lookup. by rewrite Hgroup.
  - intros [Hne ->].
    destruct (filter _ endpoints) as [| ep l] eqn:Hfilter; [done |].
    assert (ep ∈ endpoints ∧ Endpoint.Path ep = path) as [Hep <-].
    { assert (ep ∈ filter (λ ep, Endpoint.Path ep = path) endpoints) as Hin
        by (rewrite Hfilter; apply list_elem_of_here).
      apply list_elem_of_filter in Hin. tauto. }
    destruct (groupByPath_is_Some _ _ Hep) as [eps Heps].
    rewrite Heps. f_equal. rewrite <- Hfilter, <- groupByPath_lookup. by rewrite Heps.
Qed.

(** X8. A configuration with an endpoint whose path is empty or is
    [/openapi.json] stops [main] with a panic at registration, like one that
    defines [/health]: the empty pattern is refused and [/openapi.json] is
    registered before the configured paths. *)
Theorem reserved_path_stops_startup `{Platform} (config : Config.t) (ep : Endpoint.t) :
  ep ∈ Config.Endpoints config →
  Endpoint.Path ep = ""%string ∨ Endpoint.Path ep = "/openapi.json"%string →
  registerRoutes config = None.
Proof.
  intros Hep Hpath. apply (registerRoutes_conflict config ep Hep).
  rewrite !elem_of_cons. tauto.
Qed.

Lemma reserved_path_stops_startup_witness :
  @registerRoutes Mini.platform
    (Config.mk [staticEndpoint "/openapi.json" "GET" 200 VNil] None) = None.
Proof.
  apply (@reserved_path_stops_startup Mini.platform _
           (staticEndpoint "/openapi.json" "GET" 200 VNil)).
  - apply list_elem_of_here.
  - right. reflexivity.
Defined.

(** ** The handler, every branch *)





(** ** Response headers *)

Section Headers.
Context `{Platform}.

Lemma setHeaderList_untouched (l : list (string * string)) (h : gmap string string)
    (c : string) :
  (∀ k v, (k, v) ∈ l → CanonicalMIMEHeaderKey k ≠ c) →
  setHeaderList l h !! c = h !! c.
Proof.
  revert h. induction l as [| [k0 v0] l IH]; intros h Hother; [done |].
  unfold setHeaderList in *. simpl. rewrite IH.
  - unfold header_Set. simpl. rewrite lookup_insert_ne; [done |].
    apply (Hother k0 v0), list_elem_of_here.
  - intros k v Hin. apply (Hother k v). by apply list_elem_of_further.
Qed.

Lemma setHeaderList_unique (l : list (string * string)) (h : gmap string string)
    (k v : string) :
  (k, v) ∈ l →
  (∀ k' v', (k', v') ∈ l →
            CanonicalMIMEHeaderKey k' = CanonicalMIMEHeaderKey k → k' = k ∧ v' = v) →
  setHeaderList l h !! CanonicalMIMEHeaderKey k = Some v.
Proof.
  revert h. induction l as [| [k0 v0] l IH]; intros h Hin Hunique.
  { by apply elem_of_nil in Hin. }
  change (setHeaderList ((k0, v0) :: l) h) with (setHeaderList l (header_Set k0 v0 h)).
  destruct (decide ((k, v) ∈ l)) as [Hl | Hl].
  - apply IH; [done |]. intros k' v' Hin'. apply Hunique. by apply list_elem_of_further.
  - apply elem_of_cons in Hin as [[= <- <-] | Hin]; [| done].
    rewrite setHeaderList_untouched.
    + unfold header_Set. simpl. by rewrite lookup_insert_eq.
    + intros k' v' Hin' Hcanon.
      destruct (Hunique k' v') as [-> ->]; [by apply list_elem_of_further | done | done].
Qed.

Lemma setHeaders_unique (headers h : gmap string string) (k v : string) :
  headers !! k = Some v →
  (∀ k' : string, is_Some (headers !! k') →
                  CanonicalMIMEHeaderKey k' = CanonicalMIMEHeaderKey k → k' = k) →
  setHeaders headers h !! CanonicalMIMEHeaderKey k = Some v.
Proof.
  intros Hk Hunique. apply (setHeaderList_unique (map_to_list headers)).
  - by apply elem_of_map_to_list.
  - intros k' v' Hin%elem_of_map_to_list Hcanon.
    assert (k' = k) as -> by (apply Hunique; [by exists v' | done]).
    split; [done | congruence].
Qed.

Lemma setHeaders_untouched (headers h : gmap string string) (c : string) :
  (∀ k' : string, is_Some (headers !! k') → CanonicalMIMEHeaderKey k' ≠ c) →
  setHeaders headers h !! c = h !! c.
Proof.
  intros Hother. apply (setHeaderList_untouched (map_to_list headers)).
  intros k v Hin%elem_of_map_to_list. apply Hother. by exists v.
Qed.

(** X11. Writing a header map onto the response headers: an entry whose
    canonical name no other entry of the map shares ends up in the response
    with its value, replacing what was there, and a canonical name that no
    entry of the map has keeps the value it had.  The handler writes the
    endpoint's headers first and the script's afterwards, so the script's
    value is the one that stays. *)
Theorem setHeaders_overwrites (headers h : gmap string string) :
  (∀ k v : string,
     headers !! k = Some v →
     (∀ k' : string, is_Some (headers !! k') →
                     CanonicalMIMEHeaderKey k' = CanonicalMIMEHeaderKey k → k' = k) →
     setHeaders headers h !! CanonicalMIMEHeaderKey k = Some v
     ∧ header_Get k (setHeaders headers h) = v) ∧
  (∀ c : string,
     (∀ k' : string, is_Some (headers !! k') → CanonicalMIMEHeaderKey k' ≠ c) →
     setHeaders headers h !! c = h !! c).
Proof.
  split.
  - intros k v Hk Hunique.
    pose proof (setHeaders_unique headers h k v Hk Hunique) as Hlook.
    split; [exact Hlook |].
    unfold header_Get. by rewrite Hlook.
  - intros c Hother. by apply setHeaders_untouched.
Qed.


End Headers.

Lemma setHeaders_overwrites_witness :
  let headers : gmap string string := {[ "content-type" := "text/csv" ]} in
  let h : gmap string string :=
    {[ "Content-Type" := "application/json"; "X-Kept" := "1" ]} in
  @header_Get Mini.platform "content-type" (@setHeaders Mini.platform headers h)
    = "text/csv"%string ∧
  @setHeaders Mini.platform headers h !! "X-Kept"%string = Some "1"%string.
Proof.
  intros headers h.
  pose proof (@setHeaders_overwrites Mini.platform headers h) as [Hset Hkeep].
  split.
  - apply (Hset "content-type"%string "text/csv"%string); [reflexivity |].
    intros k' [v Hk']. apply lookup_singleton_Some in Hk' as [<- _]. done.
  - rewrite Hkeep; [reflexivity |].
    intros k' [v Hk']. apply lookup_singleton_Some in Hk' as [<- _].
    vm_compute. discriminate.
Defined.


(** ** The bindings a script starts with *)

Section Bindings.
Context `{Platform}.

(** An observation of the runtime's globals: [read k vm] is what the global
    [k] holds.  The two hypotheses say that [Set] defines the global it names
    and leaves the others alone. *)
Variable read : string → Runtime → option HostValue.
Hypothesis read_Set_same :
  ∀ (k : string) (v : HostValue) (vm : Runtime), read k (goja_Set k v vm) = Some v.
Hypothesis read_Set_other :
  ∀ (k k' : string) (v : HostValue) (vm : Runtime),
    k ≠ k' → read k (goja_Set k' v vm) = read k vm.

Lemma read_Set (k k' : string) (v : HostValue) (vm : Runtime) :
  read k (goja_Set k' v vm) = if decide (k = k') then Some v else read k vm.
Proof.
  destruct (decide (k = k')) as [-> | Hne]; [apply read_Set_same | by apply read_Set_other].
Qed.

Lemma read_context_loop (l : list (string * value)) (vm : Runtime) (k : string) :
  NoDup l.*1 →
  read k (foldl (λ vm kv, goja_Set kv.1 (HostAny kv.2) vm) vm l) =
    match (list_to_map l : gmap string value) !! k with
    | Some v => Some (HostAny v)
    | None => read k vm
    end.
Proof.
  revert vm. induction l as [| [k0 v0] l IH]; intros vm Hnodup; [done |].
  rewrite fmap_cons in Hnodup. apply NoDup_cons in Hnodup as [Hfresh Hnodup].
  cbn [foldl list_to_map foldr fst snd].
  rewrite IH by done.
  change (list_to_map ((k0, v0) :: l) : gmap string value)
    with (<[k0 := v0]> (list_to_map l : gmap string value)).
  rewrite lookup_insert.
  destruct (decide (k0 = k)) as [-> | Hne].
  - simpl in Hfresh. apply (not_elem_of_list_to_map_1 (M := gmap string)) in Hfresh.
    rewrite Hfresh. apply read_Set_same.
  - destruct (list_to_map l !! k); [done |]. by apply read_Set_other.
Qed.

(** X13. The globals a script starts with: a context entry wins over
    everything of its name, the built-in [req], [request], [console], [uuid],
    [now] and [timestamp] included; the built-in names otherwise hold the
    request data and the utility functions of this evaluation; and every
    other global is what the runtime held before, left there by whichever
    script ran in it last. *)
Theorem bindGlobals_bindings (req : RequestData.t) (context : gmap string value)
    (vm : Runtime) (k : string) :
  read k (bindGlobals req context vm) =
    match context !! k with
    | Some v => Some (HostAny v)
    | None =>
        if decide (k = "request"%string ∨ k = "req"%string) then Some (HostRequest req)
        else if decide (k = "timestamp"%string) then Some (HostAny timestampFunc)
        else if decide (k = "now"%string) then Some (HostAny nowFunc)
        else if decide (k = "uuid"%string) then Some (HostAny uuidFunc)
        else if decide (k = "console"%string) then Some (HostAny consoleObject)
        else read k vm
    end.
Proof.
  unfold bindGlobals. rewrite read_context_loop by apply NoDup_fst_map_to_list.
  rewrite list_to_map_to_list. destruct (context !! k); [done |].
  rewrite !read_Set.
  repeat case_decide; subst; first [done | exfalso; intuition congruence].
Qed.

End Bindings.

Lemma bindGlobals_bindings_witness :
  let read := λ (k : string) (vm : Mini.runtime), Mini.globals vm !! k in
  let req := @buildRequestData Mini.platform "/x" (plainRequest "GET" "/x") in
  let vm := Mini.mkRuntime {[ "leak" := HostAny (VInt 7) ]} false in
  read "req"%string (@bindGlobals Mini.platform req {[ "req" := VString "shadow" ]} vm)
    = Some (HostAny (VString "shadow")) ∧
  read "leak"%string (@bindGlobals Mini.platform req {[ "req" := VString "shadow" ]} vm)
    = Some (HostAny (VInt 7)).
Proof.
  intros read req vm.
  assert (∀ k, read k (@bindGlobals Mini.platform req {[ "req" := VString "shadow" ]} vm) =
               match ({[ "req" := VString "shadow" ]} : gmap string value) !! k with
               | Some v => Some (HostAny v)
               | None =>
                   if decide (k = "request"%string ∨ k = "req"%string)
                   then Some (HostRequest req)
                   else if decide (k = "timestamp"%string) then Some (HostAny timestampFunc)
                   else if decide (k = "now"%string) then Some (HostAny nowFunc)
                   else if decide (k = "uuid"%string) then Some (HostAny uuidFunc)
                   else if decide (k = "console"%string) then Some (HostAny consoleObject)
                   else read k vm
               end) as Hall.
  { intros k. apply (@bindGlobals_bindings Mini.platform read).
    - intros k0 v vm0. apply lookup_insert_eq.
    - intros k0 k' v vm0 Hne. by apply lookup_insert_ne. }
  split; [exact (Hall "req"%string) | exact (Hall "leak"%string)].
Defined.

(** ** Scripted replies *)

Section ScriptedReplies.
Context `{Platform}.



End ScriptedReplies.


(** ** The OpenAPI document, continued *)

Section OpenAPIDocument.
Context `{Platform}.

Lemma addOperation_lookup (paths : gmap string value) (ep : Endpoint.t) (path : string) :
  addOperation paths ep !! path =
    if decide (Endpoint.Path ep = path)
    then Some (VMap (<[methodKey ep := VMap (operationOf ep)]>
                       (pathItem paths (Endpoint.Path ep))))
    else paths !! path.
Proof. unfold addOperation. apply lookup_insert. Qed.

Lemma foldl_addOperation_entries (endpoints : list Endpoint.t) (path : string) :
  match foldl addOperation ∅ endpoints !! path with
  | Some v => (∃ item, v = VMap item) ∧ ∃ ep, ep ∈ endpoints ∧ Endpoint.Path ep = path
  | None => ∀ ep, ep ∈ endpoints → Endpoint.Path ep ≠ path
  end.
Proof.
  induction endpoints as [| ep endpoints IH] using rev_ind.
  - simpl. rewrite lookup_empty. by intros ep ?%elem_of_nil.
  - rewrite foldl_app. simpl. rewrite addOperation_lookup.
    destruct (decide (Endpoint.Path ep = path)) as [Hpath | Hpath].
    + split; [eauto |]. exists ep. rewrite elem_of_app, list_elem_of_singleton. auto.
    + destruct (foldl addOperation ∅ endpoints !! path) as [v |].
      * destruct IH as [Hmap (ep' & Hin & Hep')]. split; [done |].
        exists ep'. rewrite elem_of_app. auto.
      * intros ep' [Hin | ->%list_elem_of_singleton]%elem_of_app; [by apply IH | done].
Qed.

(** X15. The [paths] object of the document has an entry for [/health] and
    for every configured path, and for nothing else; every entry is a map,
    so the type assertion [paths[ep.Path].(map[string]any)] of the loop never
    fails; and the [/health] entry is the built-in one even when the
    configuration defines that path. *)
Theorem openAPIPaths_entries (config : Config.t) (path : string) :
  (is_Some (openAPIPaths config !! path) ↔
   path = "/health"%string ∨ ∃ ep, ep ∈ Config.Endpoints config ∧ Endpoint.Path ep = path) ∧
  (∀ v, foldl addOperation ∅ (Config.Endpoints config) !! path = Some v →
        ∃ item, v = VMap item) ∧
  openAPIPaths config !! "/health"%string = Some healthPathItem.
Proof.
  pose proof (foldl_addOperation_entries (Config.Endpoints config) path) as Hentries.
  unfold openAPIPaths. split_and!.
  - rewrite lookup_insert. destruct (decide ("/health"%string = path)) as [<- | Hne].
    + split; [auto | by eexists].
    + destruct (foldl addOperation ∅ (Config.Endpoints config) !! path) as [v |].
      * destruct Hentries as [_ Hep]. split; [auto | by eexists].
      * split; [by intros [? ?] |]. intros [-> | (ep & Hin & Hpath)]; [done |].
        by destruct (Hentries ep Hin).
  - intros v Hv. rewrite Hv in Hentries. tauto.
  - apply lookup_insert_eq.
Qed.


(** X17. The [info] object always has a [title] and a [version], both
    non-empty strings (the defaults stand in for a missing [info] and for
    empty fields), and it has a [description] exactly when the configuration
    gives a non-empty one. *)
Theorem openAPIInfoObject_required_fields (info : option OpenAPIInfo.t) :
  (∃ title version : string,
     openAPIInfoObject info !! "title"%string = Some (VString title) ∧ title ≠ ""%string ∧
     openAPIInfoObject info !! "version"%string = Some (VString version)
     ∧ version ≠ ""%string) ∧
  (is_Some (openAPIInfoObject info !! "description"%string) ↔
   ∃ i, info = Some i ∧ OpenAPIInfo.Description i ≠ ""%string).
Proof.
  destruct info as [[title description version] |]; unfold openAPIInfoObject; simpl.
  - destruct (String.eqb_spec title ""), (String.eqb_spec description ""),
      (String.eqb_spec version ""); simpl;
      (split;
       [eexists _, _;
        rewrite ?lookup_insert_eq, ?lookup_insert_ne, ?lookup_insert_eq by done;
        (split_and!; [reflexivity | done | reflexivity | done])
       | rewrite ?lookup_insert_ne by done;
         rewrite ?lookup_insert_eq, ?lookup_insert_ne by done;
         split; [intros [? Hd]; first [done | by eexists] | intros (? & [= <-] & ?); by eauto]]).
  - split; [by eexists _, _ |]. split; [by intros [? ?] | by intros (? & ? & _)].
Qed.

End OpenAPIDocument.


(** ** The first version and the later ones *)

Section Versions.
Context `{Platform}.

(** X18. For an endpoint of a first-version configuration, the handler of the
    later versions, closed over that endpoint alone, replies exactly as the
    first version's handler does, and does not touch the script runtimes:
    grouping by path and scripting change nothing for a path with one static
    endpoint. *)
Theorem grouped_handler_extends_basic
    (e : Basic.Endpoint.t) (pathPattern : string) (r : Request.t) (pool : Pool) :
  handler [upgradeEndpoint e] pathPattern r pool = (Basic.handler e r, pool).
Proof.
  unfold handler, Basic.handler, staticStatus. rewrite findEndpoint_cons.
  rewrite (String.eqb_sym (Request.Method r)).
  change (Endpoint.Method (upgradeEndpoint e)) with (Basic.Endpoint.Method e).
  destruct (String.eqb (Basic.Endpoint.Method e) ""),
    (String.eqb (Basic.Endpoint.Method e) (Request.Method r)); reflexivity.
Qed.

Lemma basic_registerEndpoint_panic (endpoints : list Basic.Endpoint.t) :
  foldl Basic.registerEndpoint None endpoints = None.
Proof. by induction endpoints. Qed.

Lemma basic_registerEndpoint_fresh (endpoints : list Basic.Endpoint.t)
    (mux mux' : gmap string (Request.t → Response.t)) :
  foldl Basic.registerEndpoint (Some mux) endpoints = Some mux' →
  NoDup (Basic.Endpoint.Path <$> endpoints) ∧
  ∀ ep, ep ∈ endpoints → mux !! Basic.Endpoint.Path ep = None.
Proof.
  revert mux. induction endpoints as [| ep endpoints IH]; intros mux Hfold.
  - split; [constructor | by intros ep ?%elem_of_nil].
  - simpl in Hfold. unfold Basic.HandleFunc in Hfold.
    destruct (String.eqb (Basic.Endpoint.Path ep) "");
      [by rewrite basic_registerEndpoint_panic in Hfold |].
    destruct (mux !! Basic.Endpoint.Path ep) eqn:Hfresh;
      [by rewrite basic_registerEndpoint_panic in Hfold |].
    apply IH in Hfold as [Hnodup Hrest].
    assert (∀ ep', ep' ∈ endpoints →
                   Basic.Endpoint.Path ep' ≠ Basic.Endpoint.Path ep) as Hdiff.
    { intros ep' Hin Heq. specialize (Hrest ep' Hin).
      by rewrite Heq, lookup_insert_eq in Hrest. }
    split.
    + rewrite fmap_cons. apply NoDup_cons. split; [| done].
      intros (ep' & Heq & Hin)%list_elem_of_fmap. by apply (Hdiff ep' Hin).
    + intros ep' [-> | Hin]%elem_of_cons; [done |].
      specialize (Hrest ep' Hin). rewrite lookup_insert_ne in Hrest; [done |].
      apply not_eq_sym. by apply Hdiff.
Qed.

(** X19. The first version cannot start with two endpoints on one path: each
    endpoint registers its own path, and the second registration of a path
    panics.  (Two methods on one path are what the later versions group by
    path for.) *)
Theorem basic_duplicate_path_stops_startup
    (endpoints : list Basic.Endpoint.t) (i j : nat) (e1 e2 : Basic.Endpoint.t) :
  endpoints !! i = Some e1 → endpoints !! j = Some e2 → i ≠ j →
  Basic.Endpoint.Path e1 = Basic.Endpoint.Path e2 →
  Basic.registerRoutes endpoints = None.
Proof.
  intros Hi Hj Hij Hpath. unfold Basic.registerRoutes.
  destruct (foldl Basic.registerEndpoint (Some ∅) endpoints) as [mux |] eqn:Hfold; [| done].
  apply basic_registerEndpoint_fresh in Hfold as [Hnodup _].
  exfalso. apply Hij.
  apply (NoDup_lookup _ i j (Basic.Endpoint.Path e1) Hnodup).
  - by rewrite list_lookup_fmap, Hi.
  - by rewrite list_lookup_fmap, Hj, Hpath.
Qed.

End Versions.

Lemma basic_duplicate_path_stops_startup_witness :
  let get := Basic.Endpoint.mk "/api/users" "GET" 200 (VString "list") ∅ in
  let post := Basic.Endpoint.mk "/api/users" "POST" 201 (VString "made") ∅ in
  @Basic.registerRoutes Mini.platform [get; post] = None ∧
  is_Some (groupByPath [upgradeEndpoint get; upgradeEndpoint post] !! "/api/users"%string).
Proof.
  intros get post. split.
  - apply (@basic_duplicate_path_stops_startup Mini.platform [get; post] 0 1 get post);
      [reflexivity | reflexivity | discriminate | reflexivity].
  - apply (groupByPath_is_Some [upgradeEndpoint get; upgradeEndpoint post]
             (upgradeEndpoint get)), list_elem_of_here.
Defined.

(** ** Templates without mixed segments *)

Lemma splitSlash_cons (c : ascii) (s : string) :
  splitSlash (String c s) =
    if Ascii.eqb c "/" then ""%string :: splitSlash s
    else match splitSlash s with
         | piece :: pieces => String c piece :: pieces
         | [] => [String c ""]
         end.
Proof. reflexivity. Qed.

Lemma splitSlash_no_slash (s : string) : containsByte "/" s = false → splitSlash s = [s].
Proof.
  induction s as [| c s IH]; [done |].
  simpl containsByte. intros [Hc Hs]%orb_false_iff.
  by rewrite splitSlash_cons, Hc, IH.
Qed.

Lemma splitSlash_app (s t : string) :
  containsByte "/" s = false →
  splitSlash (s ++ String "/" t)%string = s :: splitSlash t.
Proof.
  induction s as [| c s IH]; [done |].
  simpl containsByte. intros [Hc Hs]%orb_false_iff.
  change (String c s ++ String "/" t)%string with (String c (s ++ String "/" t)%string).
  by rewrite splitSlash_cons, Hc, IH.
Qed.

Lemma splitSlash_joinSlash (segs : list string) :
  segs ≠ [] → Forall (λ seg, containsByte "/" seg = false) segs →
  splitSlash (joinSlash segs) = segs.
Proof.
  induction 2 as [| seg rest Hseg Hrest IH]; [done |].
  destruct rest as [| seg' rest].
  - by apply splitSlash_no_slash.
  - change (joinSlash (seg :: seg' :: rest))
      with (seg ++ String "/" (joinSlash (seg' :: rest)))%string.
    by rewrite splitSlash_app, IH.
Qed.

Lemma scanParams_skip (s t : string) :
  containsByte "{" s = false → scanParams (s ++ t)%string None = scanParams t None.
Proof.
  induction s as [| c s IH]; [done |].
  simpl containsByte. intros [Hc Hs]%orb_false_iff.
  change (String c s ++ t)%string with (String c (s ++ t)%string).
  by rewrite scanParams_cons, Hc, IH.
Qed.

Lemma scanParams_close (name t acc : string) :
  containsByte "}" name = false →
  scanParams (name ++ String "}" t)%string (Some acc) =
    if String.eqb (acc ++ name)%string "" then scanParams t None
    else (acc ++ name)%string :: scanParams t None.
Proof.
  revert acc. induction name as [| c name IH]; intros acc.
  - intros _. change (""%string ++ String "}" t)%string with (String "}" t).
    by rewrite scanParams_cons, Ascii.eqb_refl, string_app_empty.
  - simpl containsByte. intros [Hc Hname]%orb_false_iff.
    change (String c name ++ String "}" t)%string
      with (String c (name ++ String "}" t)%string).
    rewrite scanParams_cons, Hc, IH by done.
    by rewrite string_app_assoc.
Qed.

Lemma scanParams_placeholder (name t : string) :
  name ≠ ""%string → containsByte "}" name = false →
  scanParams (String "{" (name ++ String "}" t)%string) None = name :: scanParams t None.
Proof.
  intros Hne Hclean. rewrite scanParams_cons, Ascii.eqb_refl.
  rewrite scanParams_close by done.
  change (""%string ++ name)%string with name.
  apply String.eqb_neq in Hne. by rewrite Hne.
Qed.

Lemma hasSuffixBrace_end (s : string) : hasSuffixBrace (s ++ String "}" "")%string = true.
Proof.
  induction s as [| c s IH]; [done |].
  change (String c s ++ String "}" "")%string with (String c (s ++ String "}" "")%string).
  destruct s as [| c' s]; [done |]. exact IH.
Qed.

Lemma substring_prefix (name t : string) :
  String.substring 0 (String.length name) (name ++ t)%string = name.
Proof.
  induction name as [| c name IH].
  - simpl. by destruct t.
  - change (String c name ++ t)%string with (String c (name ++ t)%string).
    simpl. by rewrite IH.
Qed.

Lemma string_length_app (s t : string) :
  String.length (s ++ t)%string = (String.length s + String.length t)%nat.
Proof.
  induction s as [| c s IH]; [done |].
  change (String c s ++ t)%string with (String c (s ++ t)%string).
  simpl. by rewrite IH.
Qed.

Lemma segmentParam_placeholder (name : string) :
  segmentParam (String "{" (name ++ String "}" "")%string) = Some name.
Proof.
  unfold segmentParam.
  change (String "{" (name ++ String "}" "")%string)
    with (String "{" name ++ String "}" "")%string at 2.
  rewrite hasSuffixBrace_end. simpl hasPrefixBrace. simpl andb.
  f_equal. unfold paramName.
  change (String.length (String "{" (name ++ String "}" "")%string))
    with (S (String.length (name ++ String "}" "")%string)).
  rewrite string_length_app. simpl String.length.
  replace (S (String.length name + 1) - 2)%nat with (String.length name) by lia.
  change (String.substring 1 (String.length name) (String "{" (name ++ String "}" "")%string))
    with (String.substring 0 (String.length name) (name ++ String "}" "")%string).
  apply substring_prefix.
Qed.

Lemma segmentParam_literal (seg : string) :
  containsByte "{" seg = false → segmentParam seg = None.
Proof.
  unfold segmentParam. destruct seg as [| c seg]; [done |].
  simpl. by intros [-> _]%orb_false_iff.
Qed.

Lemma extractPathParams_joinSlash (segs : list string) :
  Forall (λ seg, literalSegment seg ∨ placeholderSegment seg) segs →
  extractPathParams (joinSlash segs) = omap segmentParam segs.
Proof.
  unfold extractPathParams.
  induction 1 as [| seg rest Hseg Hrest IH]; [done |].
  assert (∀ t, scanParams (seg ++ t)%string None
               = from_option (λ name, [name]) [] (segmentParam seg) ++ scanParams t None)
    as Hhead.
  { intros t. destruct Hseg as [(Hopen & _ & _) | (name & -> & Hne & _ & Hclose & _)].
    - by rewrite scanParams_skip, segmentParam_literal.
    - rewrite segmentParam_placeholder. simpl.
      change (String "{" (name ++ String "}" "") ++ t)%string
        with (String "{" ((name ++ String "}" "") ++ t))%string.
      rewrite string_app_assoc.
      change (String "}" "" ++ t)%string with (String "}" t).
      by apply scanParams_placeholder. }
  destruct rest as [| seg' rest].
  - change (joinSlash [seg]) with seg. rewrite <- (string_app_empty seg) at 1.
    rewrite Hhead. simpl. destruct (segmentParam seg); by rewrite ?app_nil_r.
  - change (joinSlash (seg :: seg' :: rest))
      with (seg ++ String "/" (joinSlash (seg' :: rest)))%string.
    rewrite Hhead, scanParams_cons. simpl Ascii.eqb. cbv iota. rewrite IH.
    change (omap segmentParam (seg :: seg' :: rest))
      with (match segmentParam seg with
            | Some name => name :: omap segmentParam (seg' :: rest)
            | None => omap segmentParam (seg' :: rest)
            end).
    by destruct (segmentParam seg).
Qed.

Lemma bindSegment_is_Some (acc : gmap string string) (part seg name : string) :
  is_Some (bindSegment acc (part, seg) !! name) ↔
  is_Some (acc !! name) ∨ segmentParam part = Some name.
Proof.
  rewrite bindSegment_lookup. unfold segmentParam.
  destruct (_ && _); [| split; [auto | intros [? | [=]]; done]].
  destruct (decide (paramName part = name)) as [-> | Hne].
  - split; [auto | intros _; by eexists].
  - split; [auto |]. intros [Hacc | [= Heq]]; done.
Qed.

Lemma foldl_bindSegment_is_Some (tpl conc : list string) (acc : gmap string string)
    (name : string) :
  length tpl = length conc →
  is_Some (foldl bindSegment acc (zip tpl conc) !! name) ↔
  is_Some (acc !! name) ∨ name ∈ omap segmentParam tpl.
Proof.
  revert conc acc. induction tpl as [| part tpl IH]; intros [| seg conc] acc Hlen;
    try done.
  - simpl. rewrite elem_of_nil. tauto.
  - rewrite foldl_bindSegment_cons, IH by (simpl in Hlen; lia).
    rewrite bindSegment_is_Some.
    change (omap segmentParam (part :: tpl))
      with (match segmentParam part with
            | Some y => y :: omap segmentParam tpl
            | None => omap segmentParam tpl
            end).
    destruct (segmentParam part) as [y |].
    + rewrite elem_of_cons. split; [intros [[? | [= ->]] | ?]; auto | ].
      intros [? | [-> | ?]]; auto.
    + split; [intros [[? | [=]] | ?]; auto | intros [? | ?]; auto].
Qed.

(** X20. For a template whose segments are each either free of braces or
    one placeholder [{name}], and a request path with as many segments, the
    parameters listed in the OpenAPI document are exactly the names bound
    for the script: [extractPathParams] and [extractPathValues] agree.  (They
    are computed differently, by a pattern over the whole path and by a test
    on each segment.) *)
Theorem documented_parameters_are_bound (segs conc : list string) (name : string) :
  segs ≠ [] →
  Forall (λ seg, literalSegment seg ∨ placeholderSegment seg) segs →
  length conc = length segs →
  Forall (λ seg, containsByte "/" seg = false) conc →
  name ∈ extractPathParams (joinSlash segs) ↔
  is_Some (extractPathValues (joinSlash segs) (joinSlash conc) !! name).
Proof.
  intros Hne Hplain Hlen Hconc.
  assert (conc ≠ []) as Hne' by (destruct conc, segs; done).
  assert (Forall (λ seg, containsByte "/" seg = false) segs) as Hsegs.
  { eapply Forall_impl; [exact Hplain |]. simpl.
    intros seg [(_ & _ & Hslash) | (n & -> & _ & _ & _ & Hslash)]; [done |].
    simpl. rewrite containsByte_app, Hslash. reflexivity. }
  rewrite extractPathParams_joinSlash by done.
  unfold extractPathValues. rewrite !splitSlash_joinSlash by done.
  apply eq_sym, Nat.eqb_eq in Hlen as Hlen'. rewrite Hlen'. simpl negb. cbv iota.
  rewrite foldl_bindSegment_is_Some by done.
  rewrite lookup_empty. split; [auto |]. by intros [[? ?] | ?].
Qed.

Lemma documented_parameters_are_bound_witness :
  "postId"%string ∈ extractPathParams "/api/users/{id}/posts/{postId}" ↔
  is_Some (extractPathValues "/api/users/{id}/posts/{postId}" "/api/users/42/posts/7"
             !! "postId"%string).
Proof.
  apply (documented_parameters_are_bound
           [""; "api"; "users"; "{id}"; "posts"; "{postId}"]%string
           [""; "api"; "users"; "42"; "posts"; "7"]%string).
  - discriminate.
  - rewrite !Forall_cons, Forall_nil.
    split_and!;
      [left | left | left | right; exists "id"%string | left
       | right; exists "postId"%string | done];
      by repeat split.
  - reflexivity.
  - rewrite !Forall_cons, Forall_nil. by repeat split.
Defined.

(** ** The request data and replies without a [body] key *)

Section RequestSnapshot.
Context `{Platform}.

(** X21. The script sees one value per query parameter and per request
    header, the first of those received; the path and the method are the
    request's, and the path parameters are those of [extractPathValues] for
    the registered pattern. *)
Theorem buildRequestData_first_values (pathPattern : string) (r : Request.t)
    (k v : string) :
  let reqData := buildRequestData pathPattern r in
  (RequestData.Query reqData !! k = Some v ↔
   ∃ more, Request.URLQuery r !! k = Some (v :: more)) ∧
  (RequestData.Headers reqData !! k = Some v ↔
   ∃ more, Request.Header r !! k = Some (v :: more)) ∧
  RequestData.Method reqData = Request.Method r ∧
  RequestData.Path reqData = Request.URLPath r ∧
  RequestData.Params reqData = extractPathValues pathPattern (Request.URLPath r).
Proof.
  simpl. rewrite !lookup_omap. split_and!; try done.
  - destruct (Request.URLQuery r !! k) as [[| v0 more] |]; simpl.
    + split; [done | by intros [? ?]].
    + split; [intros [= ->]; by eexists | by intros [? [= -> _]]].
    + split; [done | by intros [? ?]].
  - destruct (Request.Header r !! k) as [[| v0 more] |]; simpl.
    + split; [done | by intros [? ?]].
    + split; [intros [= ->]; by eexists | by intros [? [= -> _]]].
    + split; [done | by intros [? ?]].
Qed.

(** X22. A script value that is a map without a [body] key is not read as a
    structured result: the whole map is the body of the reply, the status is
    200 and the headers are the endpoint's, whatever [statusCode] and
    [headers] the map holds. *)
Theorem scripted_reply_without_body_key
    (eps : list Endpoint.t) (pathPattern : string) (r : Request.t) (pool : Pool)
    (ep : Endpoint.t) (m : gmap string value) :
  findEndpoint eps (Request.Method r) = Some ep →
  Endpoint.Script ep ≠ ""%string →
  (goja_RunString (Endpoint.Script ep)
     (bindGlobals (buildRequestData pathPattern r) (Endpoint.Context ep)
        (pool_Get pool).1)).1 = RunValue (Some (GojaExports (VMap m))) →
  m !! "body"%string = None →
  (handler eps pathPattern r pool).1
    = Response.mk 200 (endpointHeaders ep) (BodyJSON (VMap m)).
Proof.
  intros Hfind Hscript Hrun Hbody. unfold handler. rewrite Hfind.
  apply String.eqb_neq in Hscript. rewrite Hscript. simpl.
  unfold Execute. destruct (pool_Get pool) as [vm rest]. simpl in Hrun.
  destruct (goja_RunString _ _) as [outcome vm']. simpl in Hrun. subst outcome. simpl.
  rewrite Hbody. reflexivity.
Qed.


End RequestSnapshot.

Lemma scripted_reply_without_body_key_witness :
  let m : gmap string value := {[ "statusCode" := VInt 404 ]} in
  let ep := scriptedEndpoint "/gone" "GET" 0 "({statusCode: 404})" in
  (@handler (Canned (RunValue (Some (GojaExports (VMap m)))))
     [ep] "/gone" (plainRequest "GET" "/gone") []).1
    = Response.mk 200 {[ "Content-Type" := "application/json" ]} (BodyJSON (VMap m)).
Proof.
  intros m ep.
  rewrite (@scripted_reply_without_body_key (Canned (RunValue (Some (GojaExports (VMap m)))))
             [ep] "/gone" (plainRequest "GET" "/gone") [] ep m);
    [| reflexivity | discriminate | reflexivity | reflexivity].
  reflexivity.
Defined.


(** ** The routes [main] registers *)

Section RegisteredRoutes.
Context `{Platform}.

Lemma registerPath_origin (routes : list (string * list Endpoint.t))
    (mux mux' : gmap string Handler) (pattern : string) :
  foldl registerPath (Some mux) routes = Some mux' →
  is_Some (mux' !! pattern) → is_Some (mux !! pattern) ∨ pattern ∈ routes.*1.
Proof.
  revert mux. induction routes as [| [path eps] routes IH]; intros mux Hfold Hreg.
  - injection Hfold as <-. auto.
  - simpl in Hfold.
    destruct (HandleFunc path (handler eps path) mux) as [mux1|] eqn:Hone.
    2: { by rewrite registerPath_panic in Hfold. }
    apply HandleFunc_Some in Hone as (_ & _ & ->).
    destruct (IH _ Hfold Hreg) as [Hmux1 | Hin].
    + rewrite lookup_insert in Hmux1. destruct (decide (path = pattern)) as [<- | _].
      * right. rewrite fmap_cons. apply list_elem_of_here.
      * auto.
    + right. rewrite fmap_cons. by apply list_elem_of_further.
Qed.

Lemma groupByPath_key (endpoints : list Endpoint.t) (path : string) :
  path ∈ (map_to_list (groupByPath endpoints)).*1 ↔
  ∃ ep, ep ∈ endpoints ∧ Endpoint.Path ep = path.
Proof.
  rewrite list_elem_of_fmap. split.
  - intros ([p eps] & -> & Hin%elem_of_map_to_list). simpl.
    pose proof (groupByPath_nonempty _ _ _ Hin) as Hne.
    pose proof (groupByPath_lookup endpoints p) as Hfilter. rewrite Hin in Hfilter.
    simpl in Hfilter. destruct eps as [| ep eps]; [done |].
    assert (ep ∈ filter (λ e, Endpoint.Path e = p) endpoints) as Hep
      by (rewrite <- Hfilter; apply list_elem_of_here).
    apply list_elem_of_filter in Hep. exists ep. tauto.
  - intros (ep & Hin & <-). destruct (groupByPath_is_Some _ _ Hin) as [eps Heps].
    exists (Endpoint.Path ep, eps). split; [done |]. by apply elem_of_map_to_list.
Qed.

(** X24. When [main] gets through its registrations, the patterns it has
    registered are [/openapi.json], [/health] and the configured paths, each
    once and nothing else; [/openapi.json] serves, with status 200 and
    [Content-Type: application/json], the document generated at startup. *)
Theorem registerRoutes_patterns (config : Config.t) (mux : gmap string Handler) :
  registerRoutes config = Some mux →
  (∀ pattern : string,
     is_Some (mux !! pattern) ↔
     pattern = "/openapi.json"%string ∨ pattern = "/health"%string
     ∨ ∃ ep, ep ∈ Config.Endpoints config ∧ Endpoint.Path ep = pattern) ∧
  (∃ h, mux !! "/openapi.json"%string = Some h ∧
        ∀ r pool, h r pool =
          (Response.mk 200 (header_Set "Content-Type" "application/json" ∅)
             (BodyJSON (generateOpenAPISpec config)), pool)).
Proof.
  unfold registerRoutes.
  rewrite (HandleFunc_fresh "/openapi.json") by done. simpl.
  destruct (foldl registerPath _ _) as [mux1|] eqn:Hfold; [| done]. simpl.
  intros (_ & Hfresh & ->)%HandleFunc_Some.
  pose proof (registerPath_all _ _ _ Hfold) as [_ Hkept].
  pose proof (registerPath_lookup _ _ _ Hfold) as [Hsame _].
  split.
  - intros pattern. rewrite lookup_insert.
    destruct (decide ("/health"%string = pattern)) as [<- | Hhealth].
    { split; [auto | by eexists]. }
    split.
    + intros Hreg. destruct (registerPath_origin _ _ _ _ Hfold Hreg) as [Hold | Hkey].
      * rewrite lookup_insert in Hold.
        destruct (decide ("/openapi.json"%string = pattern)) as [<- | _]; [auto |].
        rewrite lookup_empty in Hold. by destruct Hold.
      * apply groupByPath_key in Hkey. auto.
    + intros [-> | [-> | Hep]]; [| done |].
      * apply Hkept. left. by rewrite lookup_insert_eq.
      * apply Hkept. right. by apply groupByPath_key.
  - eexists. split; [| reflexivity].
    rewrite lookup_insert_ne.
    + apply Hsame. by rewrite lookup_insert_eq.
    + intros Heq. unfold Handler in *. rewrite Heq in Hfresh.
      rewrite (Hsame "/openapi.json"%string _ (lookup_insert_eq _ _ _)) in Hfresh. done.
Qed.

End RegisteredRoutes.

Lemma registerRoutes_patterns_witness :
  ∃ mux, @registerRoutes Mini.platform emptyConfig = Some mux ∧
         is_Some (mux !! "/openapi.json"%string) ∧ mux !! "/api/users"%string = None.
Proof.
  assert (is_Some (@registerRoutes Mini.platform emptyConfig)) as [mux Hroutes].
  { unfold registerRoutes, emptyConfig, groupByPath. simpl.
    rewrite (HandleFunc_fresh "/openapi.json") by done. simpl.
    rewrite map_to_list_empty. simpl.
    rewrite (HandleFunc_fresh "/health"); [done | done |].
    by rewrite lookup_insert_ne. }
  exists mux. split; [exact Hroutes |].
  destruct (@registerRoutes_patterns Mini.platform emptyConfig mux Hroutes) as [Hdom _].
  split.
  - apply Hdom. by left.
  - destruct (mux !! "/api/users"%string) as [h |] eqn:Hreg; [| reflexivity].
    assert (is_Some (mux !! "/api/users"%string)) as Hsome by (by exists h).
    apply Hdom in Hsome as [? | [? | (ep & Hin & _)]]; [done | done |].
    by apply elem_of_nil in Hin.
Defined.
